(** * shared-timer-manager: the shared scheduler and its consumer proxy

    A shallow embedding of [dist/shared-timer-worker.js] (the scheduler that
    runs inside the SharedWorker) and of the [TimerManager] class of
    [dist/timer-manager.esm.js] (the per-tab proxy), followed by the
    properties of the two that the specification states.

    JavaScript values are modelled by [jsval]; a [Map] is a [gmap] keyed by
    values (Leibniz equality on [jsval] is SameValueZero on the values
    modelled here); the [Set] of ports is a duplicate-free list in insertion
    order; the interval timers of the runtime are an explicit table from
    timer ids to the closures that [setInterval] registered. *)

From Stdlib Require Import QArith Qcanon.
From stdpp Require Import gmap strings list fin_maps countable.

Close Scope Qc_scope.
Close Scope Q_scope.
Local Open Scope string_scope.
Local Open Scope list_scope.

(* ===================================================================== *)
(** ** JavaScript values *)
(* ===================================================================== *)

Module Js.

(** An IEEE number, as far as the code can tell numbers apart: it only
    compares with [0] and tests [typeof].  Both zeros are [Fin 0]. *)
Inductive jsnum : Type :=
  | NaN
  | Inf (negative : bool)
  | Fin (q : Qc).

(** Primitive values and functions (a function is known by its identity). *)
Inductive jsval : Type :=
  | VUndefined
  | VNull
  | VBool (b : bool)
  | VNum (n : jsnum)
  | VStr (s : string)
  | VFun (f : nat).

#[global] Instance jsnum_eq_dec : EqDecision jsnum.
Proof. solve_decision. Defined.

#[global] Instance jsval_eq_dec : EqDecision jsval.
Proof. solve_decision. Defined.

Definition jsnum_enc (n : jsnum) : unit + bool + Qc :=
  match n with
  | NaN => inl (inl tt)
  | Inf b => inl (inr b)
  | Fin q => inr q
  end.

Definition jsnum_dec (x : unit + bool + Qc) : jsnum :=
  match x with
  | inl (inl _) => NaN
  | inl (inr b) => Inf b
  | inr q => Fin q
  end.

#[global] Instance jsnum_countable : Countable jsnum.
Proof. apply (inj_countable' jsnum_enc jsnum_dec). by intros []. Defined.

Definition jsval_enc (v : jsval) : bool + bool + jsnum + string + nat :=
  match v with
  | VUndefined => inl (inl (inl (inl false)))
  | VNull => inl (inl (inl (inl true)))
  | VBool b => inl (inl (inl (inr b)))
  | VNum n => inl (inl (inr n))
  | VStr s => inl (inr s)
  | VFun f => inr f
  end.

Definition jsval_dec (x : bool + bool + jsnum + string + nat) : jsval :=
  match x with
  | inl (inl (inl (inl false))) => VUndefined
  | inl (inl (inl (inl true))) => VNull
  | inl (inl (inl (inr b))) => VBool b
  | inl (inl (inr n)) => VNum n
  | inl (inr s) => VStr s
  | inr f => VFun f
  end.

#[global] Instance jsval_countable : Countable jsval.
Proof. apply (inj_countable' jsval_enc jsval_dec). by intros []. Defined.

(** [typeof v] *)
Definition typeof (v : jsval) : string :=
  match v with
  | VUndefined => "undefined"
  | VNull => "object"
  | VBool _ => "boolean"
  | VNum _ => "number"
  | VStr _ => "string"
  | VFun _ => "function"
  end.

(** ToBoolean: what [if (v)] and [!v] look at. *)
Definition truthy (v : jsval) : bool :=
  match v with
  | VUndefined | VNull => false
  | VBool b => b
  | VNum NaN => false
  | VNum (Inf _) => true
  | VNum (Fin q) => negb (bool_decide (q = Q2Qc 0))
  | VStr s => negb (bool_decide (s = ""))
  | VFun _ => true
  end.

(** [n <= 0] on numbers: every comparison with NaN is false. *)
Definition num_le_zero (n : jsnum) : bool :=
  match n with
  | NaN => false
  | Inf negative => negative
  | Fin q => bool_decide (q <= 0)%Qc
  end.

(** A strictly positive finite number, the contract of the protocol for
    [intervalTime]. *)
Definition positive_finite (v : jsval) : bool :=
  match v with
  | VNum (Fin q) => bool_decide (0 < q)%Qc
  | _ => false
  end.

(** The number that an integer literal denotes. *)
Definition int (z : Z) : jsval := VNum (Fin (Q2Qc (inject_Z z))).

(** A default parameter value [x = d] takes [d] when the argument is
    [undefined]. *)
Definition default_arg (x d : jsval) : jsval :=
  match x with VUndefined => d | _ => x end.

(** The structured-clone algorithm that [postMessage] runs refuses
    functions (DataCloneError) and copies the primitives. *)
Definition cloneable (v : jsval) : bool :=
  match v with VFun _ => false | _ => true end.

End Js.
Export Js.

(* ===================================================================== *)
(** ** Messages *)
(* ===================================================================== *)

Module Msg.

(** The object carried by a message.  A field that the sender left out is
    [VUndefined], which is what destructuring [event.data] gives for it. *)
Record Data : Type := mkData {
  action : jsval;
  taskName : jsval;
  intervalTime : jsval;
  canRepeat : jsval;
  timestamp : jsval
}.

#[global] Instance Data_eq_dec : EqDecision Data.
Proof. solve_decision. Defined.

(** Requests, proxy to scheduler. *)
Definition ADD_TASK (name interval repeat : jsval) : Data :=
  mkData (VStr "ADD_TASK") name interval repeat VUndefined.
Definition CLEAR_TASK (name : jsval) : Data :=
  mkData (VStr "CLEAR_TASK") name VUndefined VUndefined VUndefined.
Definition REMOVE_ALL : Data :=
  mkData (VStr "REMOVE_ALL") VUndefined VUndefined VUndefined VUndefined.
Definition PING (name : jsval) : Data :=
  mkData (VStr "PING") name VUndefined VUndefined VUndefined.

(** Events, scheduler to proxies. *)
Definition PONG (name : jsval) : Data :=
  mkData (VStr "PONG") name VUndefined VUndefined VUndefined.
Definition TIMER_TICK (name ts : jsval) : Data :=
  mkData (VStr "TIMER_TICK") name VUndefined VUndefined ts.
Definition TASK_CLEARED (name : jsval) : Data :=
  mkData (VStr "TASK_CLEARED") name VUndefined VUndefined VUndefined.
Definition ALL_TASKS_CLEARED : Data :=
  mkData (VStr "ALL_TASKS_CLEARED") VUndefined VUndefined VUndefined VUndefined.

End Msg.

(** A port is known by its identity. *)
Definition port : Type := nat.

(* ===================================================================== *)
(** ** The scheduler: dist/shared-timer-worker.js *)
(* ===================================================================== *)

Module Worker.

(** The object stored in [tasks]: [{ timerId, intervalTime, canRepeat }]. *)
Record Task : Type := mkTask {
  timerId : nat;
  intervalTime : jsval;
  canRepeat : jsval
}.

(** An armed interval timer of the runtime: the variables its callback
    closes over ([taskName], [canRepeat]) and the delay it was given. *)
Record Interval : Type := mkInterval {
  i_taskName : jsval;
  i_canRepeat : jsval;
  i_delay : jsval
}.

(** The module-level state of the worker ([tasks], [ports]) together with
    the part of the runtime it acts on: the table of armed interval timers
    and the next handle [setInterval] returns, the wall clock ([clock k] is
    what the [k]-th call of [Date.now()] returns) and the messages posted so
    far, oldest first, each with the port it was posted on. *)
Record State : Type := mkState {
  tasks : gmap jsval Task;
  ports : list port;
  intervals : gmap nat Interval;
  nextTimerId : nat;
  clock : nat -> Z;
  reads : nat;
  sent : list (port * Msg.Data)
}.

Definition set_tasks (f : gmap jsval Task -> gmap jsval Task) (s : State) : State :=
  mkState (f (tasks s)) (ports s) (intervals s) (nextTimerId s) (clock s) (reads s) (sent s).

(** A worker that has just been loaded. *)
Definition init (clk : nat -> Z) : State :=
  mkState ∅ [] ∅ 1 clk 0 [].

(** *** Runtime primitives *)

(** [setInterval(handler, delay)] arms a timer and returns its fresh handle. *)
Definition setInterval (h : Interval) (s : State) : nat * State :=
  (nextTimerId s,
   mkState (tasks s) (ports s) (<[nextTimerId s := h]> (intervals s))
           (S (nextTimerId s)) (clock s) (reads s) (sent s)).

(** [clearInterval(id)] disarms the timer; an unknown handle is ignored. *)
Definition clearInterval (id : nat) (s : State) : State :=
  mkState (tasks s) (ports s) (delete id (intervals s))
          (nextTimerId s) (clock s) (reads s) (sent s).

(** [Date.now()] *)
Definition Date_now (s : State) : jsval * State :=
  (int (clock s (reads s)),
   mkState (tasks s) (ports s) (intervals s) (nextTimerId s)
           (clock s) (S (reads s)) (sent s)).

(** [port.postMessage(d)] *)
Definition postMessage (p : port) (d : Msg.Data) (s : State) : State :=
  mkState (tasks s) (ports s) (intervals s) (nextTimerId s)
          (clock s) (reads s) (sent s ++ [(p, d)]).

(** [ports.add(p)] on the insertion-ordered [Set]. *)
Definition ports_add (p : port) (s : State) : State :=
  mkState (tasks s) (if bool_decide (p ∈ ports s) then ports s else ports s ++ [p])
          (intervals s) (nextTimerId s) (clock s) (reads s) (sent s).

(** [ports.forEach(port => body(port))] *)
Definition ports_forEach (body : port -> State -> State) (s : State) : State :=
  foldl (fun acc p => body p acc) s (ports s).

(** *** The functions of the worker *)

(** [clearTask(taskName)], lines 58-72. *)
Definition clearTask (taskName : jsval) (s : State) : State :=
  match tasks s !! taskName with
  | Some task =>
      let s := clearInterval (timerId task) s in
      let s := set_tasks (delete taskName) s in
      ports_forEach (fun p => postMessage p (Msg.TASK_CLEARED taskName)) s
  | None => s
  end.

(** The callback that [addTask] hands to [setInterval], lines 39-53. *)
Definition on_interval (h : Interval) (s : State) : State :=
  let s := ports_forEach (fun p s =>
             let '(now, s) := Date_now s in
             postMessage p (Msg.TIMER_TICK (i_taskName h) now) s) s in
  if negb (truthy (i_canRepeat h)) then clearTask (i_taskName h) s else s.

(** [addTask(taskName, intervalTime, canRepeat)], lines 33-56. *)
Definition addTask (taskName intervalTime canRepeat : jsval) (s : State) : State :=
  let s := match tasks s !! taskName with
           | Some task => clearInterval (timerId task) s
           | None => s
           end in
  let '(timerId, s) := setInterval (mkInterval taskName canRepeat intervalTime) s in
  set_tasks <[taskName := mkTask timerId intervalTime canRepeat]> s.

(** [removeAllTasks()], lines 74-86. *)
Definition removeAllTasks (s : State) : State :=
  let s := map_fold (fun _ task acc => clearInterval (timerId task) acc) s (tasks s) in
  let s := set_tasks (fun _ => ∅) s in
  ports_forEach (fun p => postMessage p Msg.ALL_TASKS_CLEARED) s.

(** [port.onmessage], lines 11-28; [p] is the port the handler closes over. *)
Definition onmessage (p : port) (data : Msg.Data) (s : State) : State :=
  let action := Msg.action data in
  let taskName := Msg.taskName data in
  let intervalTime := Msg.intervalTime data in
  let canRepeat := Msg.canRepeat data in
  if bool_decide (action = VStr "ADD_TASK") then addTask taskName intervalTime canRepeat s
  else if bool_decide (action = VStr "CLEAR_TASK") then clearTask taskName s
  else if bool_decide (action = VStr "REMOVE_ALL") then removeAllTasks s
  else if bool_decide (action = VStr "PING") then postMessage p (Msg.PONG taskName) s
  else s.

(** [self.onconnect], lines 7-31: the port joins [ports] and from then on
    its messages are handled by [onmessage]. *)
Definition onconnect (p : port) (s : State) : State := ports_add p s.

(** *** The event loop

    The worker is single-threaded: each event runs its handler to
    completion.  The handlers the worker installs are [onconnect], one
    [onmessage] per connected port and one interval callback per armed
    timer.  It installs none for a failure of a port ([onmessageerror],
    [close]), so such an event runs no code of the worker. *)
Inductive Event : Type :=
  | Connect (p : port)
  | Message (p : port) (data : Msg.Data)
  | Fire (id : nat)
  | PortFailure (p : port).

Definition step (s : State) (e : Event) : State :=
  match e with
  | Connect p => onconnect p s
  | Message p data => if bool_decide (p ∈ ports s) then onmessage p data s else s
  | Fire id =>
      match intervals s !! id with
      | Some h => on_interval h s
      | None => s
      end
  | PortFailure _ => s
  end.

Definition run (s : State) (es : list Event) : State := foldl step s es.

End Worker.

(** *** What is observed of the scheduler *)

Module WorkerSpec.
Import Worker.

(** One message posted on every port of a list, in the order of the list. *)
Definition to_all (d : Msg.Data) (ps : list port) : list (port * Msg.Data) :=
  (fun p => (p, d)) <$> ps.

(** The ticks of one firing: the [k]-th port gets the [k]-th clock reading
    made from [r] on. *)
Definition ticks (name : jsval) (clk : nat -> Z) (r : nat) (ps : list port)
  : list (port * Msg.Data) :=
  imap (fun k p => (p, Msg.TIMER_TICK name (int (clk (r + k))))) ps.

(** The handles of the armed timers whose callback ticks for [name]. *)
Definition handles (name : jsval) (s : State) : list nat :=
  (map_to_list (filter (fun ih => i_taskName ih.2 = name) (intervals s))).*1.

(** The ticks for [name] in a log. *)
Definition tick_log (name : jsval) (log : list (port * Msg.Data))
  : list (port * Msg.Data) :=
  filter (fun pd => Msg.action pd.2 = VStr "TIMER_TICK" /\ Msg.taskName pd.2 = name) log.

(** An event that carries an [ADD_TASK] for [name]. *)
Definition adds (name : jsval) (e : Event) : bool :=
  match e with
  | Message _ d => bool_decide (Msg.action d = VStr "ADD_TASK" /\ Msg.taskName d = name)
  | _ => false
  end.

(** No timer is armed for [name]. *)
Definition unarmed (name : jsval) (s : State) : Prop :=
  forall id h, intervals s !! id = Some h -> i_taskName h <> name.

(** The registry and the timer table describe each other: the handle a
    task holds is armed with a callback for that task, each armed timer is
    the handle of the task it ticks for, handles are never reused, and no
    port is listed twice. *)
Record inv (s : State) : Prop := mkInv {
  inv_task : forall name t, tasks s !! name = Some t ->
    intervals s !! timerId t = Some (mkInterval name (canRepeat t) (intervalTime t));
  inv_timer : forall id h, intervals s !! id = Some h ->
    exists t, tasks s !! i_taskName h = Some t /\ timerId t = id;
  inv_fresh : forall id, is_Some (intervals s !! id) -> id < nextTimerId s;
  inv_ports : NoDup (ports s)
}.

End WorkerSpec.

(* ===================================================================== *)
(** ** The proxy: class TimerManager of dist/timer-manager.esm.js *)
(* ===================================================================== *)

Module Proxy.

(** What a method can throw: [new Error(message)], the TypeError of calling
    a value that is not a function, and the DataCloneError of
    [postMessage]. *)
Inductive exn : Type :=
  | Error (message : string)
  | TypeError
  | DataCloneError.

#[global] Instance exn_eq_dec : EqDecision exn.
Proof. solve_decision. Defined.

Inductive result (A : Type) : Type :=
  | Returns (a : A)
  | Throws (e : exn).
Arguments Returns {A} a.
Arguments Throws {A} e.

(** The fields of the object ([callbacks], [isConnected]) and what it has
    done to the outside: [posted] are the messages put on [worker.port],
    oldest first, and [calls] the callbacks invoked, each with its
    arguments, oldest first.  What a callback does when it runs belongs to
    the application. *)
Record TimerManager : Type := mkTimerManager {
  workerPath : jsval;
  callbacks : gmap jsval jsval;
  isConnected : bool;
  posted : list Msg.Data;
  calls : list (nat * list jsval)
}.

(** A method body: it reads and writes [this] and returns or throws.  The
    writes made before a throw stay. *)
Definition M (A : Type) : Type := TimerManager -> result A * TimerManager.

Definition ret {A} (a : A) : M A := fun this => (Returns a, this).

Definition bind {A B} (m : M A) (k : A -> M B) : M B :=
  fun this =>
    match m this with
    | (Returns a, this') => k a this'
    | (Throws e, this') => (Throws e, this')
    end.

Definition throw {A} (e : exn) : M A := fun this => (Throws e, this).

Definition read {A} (field : TimerManager -> A) : M A :=
  fun this => (Returns (field this), this).

Notation "x <- m ;; k" := (bind m (fun x => k))
  (at level 100, m at next level, right associativity).
Notation "m ;;; k" := (bind m (fun _ => k))
  (at level 100, right associativity).

(** [if (c) { throw e; }] *)
Definition throw_if (c : bool) (e : exn) : M unit :=
  if c then throw e else ret tt.

Definition set_callbacks (f : gmap jsval jsval -> gmap jsval jsval) : M unit :=
  fun this =>
    (Returns tt,
     mkTimerManager (workerPath this) (f (callbacks this)) (isConnected this)
                    (posted this) (calls this)).

Definition set_isConnected (b : bool) : M unit :=
  fun this =>
    (Returns tt,
     mkTimerManager (workerPath this) (callbacks this) b (posted this) (calls this)).

(** [this.worker.port.postMessage(data)]: the data is cloned, then queued. *)
Definition port_postMessage (data : Msg.Data) : M unit :=
  fun this =>
    if cloneable (Msg.action data) && cloneable (Msg.taskName data)
       && cloneable (Msg.intervalTime data) && cloneable (Msg.canRepeat data)
       && cloneable (Msg.timestamp data)
    then (Returns tt,
          mkTimerManager (workerPath this) (callbacks this) (isConnected this)
                         (posted this ++ [data]) (calls this))
    else (Throws DataCloneError, this).

(** [callback(args)] *)
Definition call (callback : jsval) (args : list jsval) : M unit :=
  fun this =>
    match callback with
    | VFun f =>
        (Returns tt,
         mkTimerManager (workerPath this) (callbacks this) (isConnected this)
                        (posted this) (calls this ++ [(f, args)]))
    | _ => (Throws TypeError, this)
    end.

(** [init()], lines 10-28.  [supported] tells whether [new SharedWorker]
    succeeds in this environment. *)
Definition init (supported : bool) : M unit :=
  if supported then set_isConnected true
  else throw (Error "SharedWorker not supported or failed to initialize").

(** [constructor(workerPath = '/shared-timer-worker.js')], lines 2-8. *)
Definition constructor (workerPath : jsval) (supported : bool)
  : result unit * TimerManager :=
  let workerPath := default_arg workerPath (VStr "/shared-timer-worker.js") in
  init supported (mkTimerManager workerPath ∅ false [] []).

(** [typeof intervalTime !== 'number' || intervalTime <= 0]: the comparison
    is evaluated on numbers only. *)
Definition bad_interval (intervalTime : jsval) : bool :=
  negb (bool_decide (typeof intervalTime = "number"))
  || match intervalTime with VNum n => num_le_zero n | _ => false end.

(** [addTimerTask(taskName, intervalTime, callback, canRepeat = true)],
    lines 56-79. *)
Definition addTimerTask (taskName intervalTime callback canRepeat : jsval) : M unit :=
  let canRepeat := default_arg canRepeat (VBool true) in
  connected <- read isConnected ;;
  throw_if (negb connected) (Error "TimerManager is not connected to SharedWorker") ;;;
  throw_if (negb (bool_decide (typeof callback = "function")))
           (Error "Callback must be a function") ;;;
  throw_if (bad_interval intervalTime)
           (Error "Interval time must be a positive number") ;;;
  set_callbacks <[taskName := callback]> ;;;
  port_postMessage (Msg.ADD_TASK taskName intervalTime canRepeat).

(** [clearTimerTask(taskName)], lines 85-95. *)
Definition clearTimerTask (taskName : jsval) : M unit :=
  connected <- read isConnected ;;
  throw_if (negb connected) (Error "TimerManager is not connected to SharedWorker") ;;;
  set_callbacks (delete taskName) ;;;
  port_postMessage (Msg.CLEAR_TASK taskName).

(** [removeAllTimerTasks()], lines 100-109. *)
Definition removeAllTimerTasks : M unit :=
  connected <- read isConnected ;;
  throw_if (negb connected) (Error "TimerManager is not connected to SharedWorker") ;;;
  set_callbacks (fun _ => ∅) ;;;
  port_postMessage Msg.REMOVE_ALL.

(** [ping(taskName = 'health-check')], lines 116-126. *)
Definition ping (taskName : jsval) : M bool :=
  let taskName := default_arg taskName (VStr "health-check") in
  connected <- read isConnected ;;
  if negb connected then ret false
  else port_postMessage (Msg.PING taskName) ;;; ret true.

(** [handleWorkerMessage(data)], lines 30-47. *)
Definition handleWorkerMessage (data : Msg.Data) : M unit :=
  let action := Msg.action data in
  let taskName := Msg.taskName data in
  let timestamp := Msg.timestamp data in
  if bool_decide (action = VStr "TIMER_TICK") then
    cbs <- read callbacks ;;
    let callback := default VUndefined (cbs !! taskName) in
    if truthy callback then call callback [taskName; timestamp] else ret tt
  else if bool_decide (action = VStr "TASK_CLEARED") then ret tt
  else if bool_decide (action = VStr "ALL_TASKS_CLEARED") then set_callbacks (fun _ => ∅)
  else ret tt.

(** [getActiveTasks()], lines 132-134: the keys of [callbacks] as an array.
    The array lists each key once; the order of insertion, in which a [Map]
    lists its keys, is not kept by [gmap]. *)
Definition getActiveTasks (this : TimerManager) : list jsval :=
  (map_to_list (callbacks this)).*1.

(** [hasTask(taskName)], lines 141-143. *)
Definition hasTask (taskName : jsval) (this : TimerManager) : bool :=
  bool_decide (is_Some (callbacks this !! taskName)).

(** What the application and the port can do to a proxy. *)
Inductive Op : Type :=
  | AddTimerTask (taskName intervalTime callback canRepeat : jsval)
  | ClearTimerTask (taskName : jsval)
  | RemoveAllTimerTasks
  | Ping (taskName : jsval)
  | Incoming (data : Msg.Data).

Definition step (this : TimerManager) (op : Op) : TimerManager :=
  match op with
  | AddTimerTask n i c r => (addTimerTask n i c r this).2
  | ClearTimerTask n => (clearTimerTask n this).2
  | RemoveAllTimerTasks => (removeAllTimerTasks this).2
  | Ping n => (ping n this).2
  | Incoming d => (handleWorkerMessage d this).2
  end.

Definition run (this : TimerManager) (ops : list Op) : TimerManager :=
  foldl step this ops.

(** The events posted on one port, in the order they were posted, handled
    one after the other by the proxy behind it. *)
Definition receive (this : TimerManager) (ds : list Msg.Data) : TimerManager :=
  foldl (fun this d => (handleWorkerMessage d this).2) this ds.

End Proxy.

(** *** What is observed of the proxy *)

Module ProxySpec.
Import Proxy.

(** The callback of [addTimerTask] is callable. *)
Definition callable (callback : jsval) : bool :=
  bool_decide (typeof callback = "function").

(** A number greater than zero. *)
Definition positive_number (v : jsval) : bool :=
  match v with
  | VNum (Fin q) => bool_decide (0 < q)%Qc
  | VNum (Inf negative) => negb negative
  | _ => false
  end.

(** The two errors [addTimerTask] throws for a bad argument. *)
Definition invalid_argument (e : exn) : bool :=
  bool_decide (e = Error "Callback must be a function"
               \/ e = Error "Interval time must be a positive number").

(** The error of a proxy whose worker never connected. *)
Definition not_connected (e : exn) : bool :=
  bool_decide (e = Error "TimerManager is not connected to SharedWorker").

(** Every value held in [callbacks] is a function. *)
Definition callbacks_are_functions (this : TimerManager) : Prop :=
  forall name v, callbacks this !! name = Some v -> exists f, v = VFun f.

End ProxySpec.

(** The messages of a log that went to port [p]. *)
Definition inbox (p : port) (log : list (port * Msg.Data)) : list Msg.Data :=
  (filter (fun pd => pd.1 = p) log).*2.

(** The requests a proxy posted, handled by the scheduler as messages of
    its port [p]. *)
Definition deliver (p : port) (ds : list Msg.Data) (s : Worker.State) : Worker.State :=
  foldl (fun s d => Worker.step s (Worker.Message p d)) s ds.

(** A proxy as the constructor leaves it when the SharedWorker starts. *)
Definition fresh_proxy : Proxy.TimerManager :=
  (Proxy.constructor VUndefined true).2.

(* ===================================================================== *)
(** ** The copy of TimerManager bundled into dist/shared-timer-worker.js *)
(* ===================================================================== *)

Module Bundled.
Import Proxy.

(** [addTimerTask(taskName, intervalTime, callback, canRepeat = true)] of
    the class at lines 92-212 of [dist/shared-timer-worker.js], lines
    147-166.  The object has the same fields as the one of the ESM build,
    and its other methods have the same bodies, except that it has neither
    [getActiveTasks] nor [hasTask]. *)
Definition addTimerTask (taskName intervalTime callback canRepeat : jsval) : M unit :=
  let canRepeat := default_arg canRepeat (VBool true) in
  connected <- read isConnected ;;
  throw_if (negb connected) (Error "TimerManager is not connected to SharedWorker") ;;;
  throw_if (negb (bool_decide (typeof callback = "function")))
           (Error "Callback must be a function") ;;;
  set_callbacks <[taskName := callback]> ;;;
  port_postMessage (Msg.ADD_TASK taskName intervalTime canRepeat).

End Bundled.

(** *** What is observed on the wire *)

Module WireSpec.

(** The requests of the protocol as the ESM proxy forms them: an
    [ADD_TASK] carries a number that is not [<= 0] and a repeat flag. *)
Definition proxy_request (d : Msg.Data) : bool :=
  if bool_decide (Msg.action d = VStr "ADD_TASK")
  then negb (Proxy.bad_interval (Msg.intervalTime d))
       && negb (bool_decide (Msg.canRepeat d = VUndefined))
  else bool_decide (Msg.action d ∈ [VStr "CLEAR_TASK"; VStr "REMOVE_ALL"; VStr "PING"]).

(** The events of the protocol. *)
Definition scheduler_event (d : Msg.Data) : bool :=
  bool_decide (Msg.action d ∈ [VStr "PONG"; VStr "TIMER_TICK"; VStr "TASK_CLEARED";
                               VStr "ALL_TASKS_CLEARED"]).

(** The ticks a port at position [idx] of [n] ports gets from [k] firings
    in a row of a timer for [name], the clock having been read [r] times
    before. *)
Definition tick_stream (name : jsval) (clk : nat -> Z) (r n idx k : nat)
  : list Msg.Data :=
  (fun j => Msg.TIMER_TICK name (int (clk (r + j * n + idx)))) <$> seq 0 k.

End WireSpec.

(* ===================================================================== *)
(** ** The scheduler, function by function *)
(* ===================================================================== *)

Module WorkerFacts.
Import Worker WorkerSpec.

Lemma foldl_post d ps s :
  foldl (fun acc p => postMessage p d acc) s ps
  = mkState (tasks s) (ports s) (intervals s) (nextTimerId s) (clock s) (reads s)
            (sent s ++ to_all d ps).
Proof.
  revert s. induction ps as [|p ps IH]; intros s; simpl.
  - rewrite app_nil_r. by destruct s.
  - rewrite IH. simpl. by rewrite <- app_assoc.
Qed.

Lemma forEach_post d s :
  ports_forEach (fun p => postMessage p d) s
  = mkState (tasks s) (ports s) (intervals s) (nextTimerId s) (clock s) (reads s)
            (sent s ++ to_all d (ports s)).
Proof. apply foldl_post. Qed.

Lemma foldl_tick name ps s :
  foldl (fun acc p => let '(now, acc) := Date_now acc in
                      postMessage p (Msg.TIMER_TICK name now) acc) s ps
  = mkState (tasks s) (ports s) (intervals s) (nextTimerId s) (clock s)
            (reads s + length ps) (sent s ++ ticks name (clock s) (reads s) ps).
Proof.
  revert s. induction ps as [|p ps IH]; intros s; simpl.
  - rewrite app_nil_r, Nat.add_0_r. by destruct s.
  - rewrite IH. simpl. unfold ticks. rewrite <- app_assoc. simpl.
    rewrite Nat.add_0_r, Nat.add_succ_r. do 3 f_equal.
    apply imap_ext. intros k q _. simpl. by rewrite Nat.add_succ_r.
Qed.

Lemma clearTask_Some name t s :
  tasks s !! name = Some t ->
  clearTask name s
  = mkState (delete name (tasks s)) (ports s) (delete (timerId t) (intervals s))
            (nextTimerId s) (clock s) (reads s)
            (sent s ++ to_all (Msg.TASK_CLEARED name) (ports s)).
Proof. intros H. unfold clearTask. rewrite H. by rewrite forEach_post. Qed.

Lemma clearTask_None name s :
  tasks s !! name = None -> clearTask name s = s.
Proof. intros H. unfold clearTask. by rewrite H. Qed.

Lemma addTask_eq name i r s :
  addTask name i r s
  = mkState (<[name := mkTask (nextTimerId s) i r]> (tasks s)) (ports s)
            (<[nextTimerId s := mkInterval name r i]>
               (match tasks s !! name with
                | Some t => delete (timerId t) (intervals s)
                | None => intervals s
                end))
            (S (nextTimerId s)) (clock s) (reads s) (sent s).
Proof. unfold addTask. by destruct (tasks s !! name). Qed.

(** After the loop of [removeAllTasks] the armed timers are those that no
    task of the registry holds. *)
Lemma clear_every_handle (m : gmap jsval Task) s :
  let s' := map_fold (fun _ task acc => clearInterval (timerId task) acc) s m in
  tasks s' = tasks s /\ ports s' = ports s /\ nextTimerId s' = nextTimerId s
  /\ clock s' = clock s /\ reads s' = reads s /\ sent s' = sent s
  /\ forall id h, intervals s' !! id = Some h <->
       intervals s !! id = Some h
       /\ forall name t, m !! name = Some t -> timerId t <> id.
Proof.
  simpl. revert m.
  apply (map_fold_weak_ind (fun (r : State) (m : gmap jsval Task) =>
    tasks r = tasks s /\ ports r = ports s /\ nextTimerId r = nextTimerId s
    /\ clock r = clock s /\ reads r = reads s /\ sent r = sent s
    /\ forall id h, intervals r !! id = Some h <->
         intervals s !! id = Some h
         /\ forall name t, m !! name = Some t -> timerId t <> id)).
  - split_and!; try done. intros id h. split; [done|by intros [? _]].
  - intros name t m r Hfresh (?&?&?&?&?&?&IH). simpl.
    split_and!; try done. intros id h. split.
    + intros Hl. apply lookup_delete_Some in Hl as [Hne Hl].
      apply IH in Hl as [Hl Hm]. split; [done|].
      intros name' t' Hin. destruct (decide (name = name')) as [->|Hn].
      * rewrite lookup_insert_eq in Hin. by simplify_eq.
      * rewrite lookup_insert_ne in Hin by done. eauto.
    + intros [Hl Hm]. apply lookup_delete_Some. split.
      * apply (Hm name t). by rewrite lookup_insert_eq.
      * apply IH. split; [done|]. intros name' t' Hin. apply (Hm name' t').
        rewrite lookup_insert_ne; [done|]. intros ->. congruence.
Qed.

Lemma removeAllTasks_eq s :
  exists im,
    removeAllTasks s
    = mkState ∅ (ports s) im (nextTimerId s) (clock s) (reads s)
              (sent s ++ to_all Msg.ALL_TASKS_CLEARED (ports s))
    /\ forall id h, im !! id = Some h <->
         intervals s !! id = Some h
         /\ forall name t, tasks s !! name = Some t -> timerId t <> id.
Proof.
  unfold removeAllTasks.
  destruct (clear_every_handle (tasks s) s) as (Ht&Hp&Hn&Hc&Hr&Hs&Hi).
  set (s' := map_fold _ s (tasks s)) in *.
  exists (intervals s'). split; [|done].
  rewrite forEach_post. simpl. by rewrite Hp, Hn, Hc, Hr, Hs.
Qed.

Lemma on_interval_eq h s :
  on_interval h s
  = let s1 := mkState (tasks s) (ports s) (intervals s) (nextTimerId s) (clock s)
                      (reads s + length (ports s))
                      (sent s ++ ticks (i_taskName h) (clock s) (reads s) (ports s)) in
    if negb (truthy (i_canRepeat h)) then clearTask (i_taskName h) s1 else s1.
Proof. unfold on_interval, ports_forEach. by rewrite foldl_tick. Qed.

End WorkerFacts.

(* ===================================================================== *)
(** ** The invariant of the scheduler *)
(* ===================================================================== *)

Module WorkerInv.
Import Worker WorkerSpec WorkerFacts.

Lemma inv_init clk : inv (init clk).
Proof. split; simpl; try done. - by intros ? [? ?]. - constructor. Qed.

(** Two tasks never hold the same handle. *)
Lemma inv_handle_inj s n1 n2 t1 t2 :
  inv s -> tasks s !! n1 = Some t1 -> tasks s !! n2 = Some t2 ->
  timerId t1 = timerId t2 -> n1 = n2.
Proof.
  intros I H1 H2 E. apply (inv_task s I) in H1, H2.
  rewrite E in H1. congruence.
Qed.

Lemma inv_onconnect p s : inv s -> inv (onconnect p s).
Proof.
  intros [I1 I2 I3 I4]. split; simpl; try done.
  case_bool_decide; [done|].
  apply list.NoDup_app. split_and!; [done| |apply list.NoDup_singleton].
  intros q Hq Hq'. apply list_elem_of_singleton in Hq'. by subst.
Qed.

Lemma inv_postMessage p d s : inv s -> inv (postMessage p d s).
Proof. by intros [I1 I2 I3 I4]. Qed.

Lemma inv_clearTask name s : inv s -> inv (clearTask name s).
Proof.
  intros I. destruct (tasks s !! name) as [t|] eqn:Ht.
  2: by rewrite clearTask_None.
  rewrite (clearTask_Some _ _ _ Ht). split; simpl.
  - intros n t' Hl. apply lookup_delete_Some in Hl as [Hne Hl].
    rewrite lookup_delete_ne; [by apply (inv_task s I)|].
    intros E. apply Hne. by apply (inv_handle_inj s name n t t').
  - intros id h Hl. apply lookup_delete_Some in Hl as [Hne Hl].
    destruct (inv_timer s I id h Hl) as (t' & Ht' & Hid).
    exists t'. split; [|done]. rewrite lookup_delete_ne; [done|].
    intros E. rewrite <- E in Ht'. congruence.
  - intros id [h Hl]. apply lookup_delete_Some in Hl as [_ Hl].
    apply (inv_fresh s I). eauto.
  - apply (inv_ports s I).
Qed.

Lemma inv_addTask name i r s : inv s -> inv (addTask name i r s).
Proof.
  intros I. rewrite addTask_eq.
  set (im := match tasks s !! name with
             | Some t => delete (timerId t) (intervals s)
             | None => intervals s
             end).
  assert (Him : forall id h, im !! id = Some h ->
            intervals s !! id = Some h /\ i_taskName h <> name).
  { intros id h. unfold im. destruct (tasks s !! name) as [t|] eqn:Ht.
    - intros Hl. apply lookup_delete_Some in Hl as [Hne Hl]. split; [done|].
      intros E. destruct (inv_timer s I id h Hl) as (t' & Ht' & Hid).
      rewrite E in Ht'. congruence.
    - intros Hl. split; [done|]. intros E.
      destruct (inv_timer s I id h Hl) as (t' & Ht' & Hid).
      rewrite E in Ht'. congruence. }
  assert (Hkeep : forall n t, n <> name -> tasks s !! n = Some t ->
            im !! timerId t = intervals s !! timerId t).
  { intros n t Hn Hl. unfold im. destruct (tasks s !! name) as [t0|] eqn:Ht; [|done].
    rewrite lookup_delete_ne; [done|]. intros E. apply Hn.
    by apply (inv_handle_inj s n name t t0). }
  split; simpl.
  - intros n t Hl. destruct (decide (name = n)) as [->|Hne].
    + rewrite lookup_insert_eq in Hl. simplify_eq. simpl. by rewrite lookup_insert_eq.
    + rewrite lookup_insert_ne in Hl by done.
      pose proof (inv_task s I n t Hl) as Ht.
      assert (timerId t < nextTimerId s) by (apply (inv_fresh s I); eauto).
      rewrite lookup_insert_ne by lia. rewrite (Hkeep n t); done.
  - intros id h Hl. destruct (decide (nextTimerId s = id)) as [<-|Hne].
    + rewrite lookup_insert_eq in Hl. simplify_eq. simpl.
      rewrite lookup_insert_eq. eauto.
    + rewrite lookup_insert_ne in Hl by done.
      apply Him in Hl as [Hl Hn].
      destruct (inv_timer s I id h Hl) as (t' & Ht' & Hid).
      exists t'. by rewrite lookup_insert_ne.
  - intros id [h Hl]. destruct (decide (nextTimerId s = id)) as [<-|Hne]; [lia|].
    rewrite lookup_insert_ne in Hl by done. apply Him in Hl as [Hl _].
    assert (id < nextTimerId s) by (apply (inv_fresh s I); eauto). lia.
  - apply (inv_ports s I).
Qed.

(** In a state that satisfies the invariant every armed timer is held by
    a task, so [removeAllTasks] leaves none armed. *)
Lemma removeAllTasks_inv_eq s :
  inv s ->
  removeAllTasks s
  = mkState ∅ (ports s) ∅ (nextTimerId s) (clock s) (reads s)
            (sent s ++ to_all Msg.ALL_TASKS_CLEARED (ports s)).
Proof.
  intros I. destruct (removeAllTasks_eq s) as (im & -> & Him).
  f_equal. apply map_eq. intros id. rewrite lookup_empty.
  destruct (im !! id) as [h|] eqn:Hl; [|done].
  apply Him in Hl as [Hl Hno].
  destruct (inv_timer s I id h Hl) as (t & Ht & Hid).
  by destruct (Hno _ _ Ht).
Qed.

Lemma inv_removeAllTasks s : inv s -> inv (removeAllTasks s).
Proof.
  intros I. rewrite (removeAllTasks_inv_eq s I). split; simpl; try done.
  - by intros ? [? ?].
  - apply (inv_ports s I).
Qed.

Lemma inv_onmessage p d s : inv s -> inv (onmessage p d s).
Proof.
  intros I. unfold onmessage. repeat case_bool_decide;
    auto using inv_addTask, inv_clearTask, inv_removeAllTasks, inv_postMessage.
Qed.

Lemma inv_on_interval h s : inv s -> inv (on_interval h s).
Proof.
  intros I. rewrite on_interval_eq. simpl.
  assert (inv (mkState (tasks s) (ports s) (intervals s) (nextTimerId s) (clock s)
                       (reads s + length (ports s))
                       (sent s ++ ticks (i_taskName h) (clock s) (reads s) (ports s)))).
  { by destruct I. }
  destruct (negb (truthy (i_canRepeat h))); [by apply inv_clearTask|done].
Qed.

Lemma inv_step s e : inv s -> inv (step s e).
Proof.
  intros I. destruct e as [p|p d|id|p]; simpl.
  - by apply inv_onconnect.
  - case_bool_decide; [by apply inv_onmessage|done].
  - destruct (intervals s !! id); [by apply inv_on_interval|done].
  - done.
Qed.

Lemma inv_run es : forall s, inv s -> inv (run s es).
Proof.
  induction es as [|e es IH]; intros s I; simpl; [done|].
  apply IH. by apply inv_step.
Qed.

(** Every state the worker can be in. *)
Lemma inv_reachable clk es : inv (run (init clk) es).
Proof. apply inv_run, inv_init. Qed.

(** The armed timers that tick for [name] are exactly the handle of the
    task registered under [name], if there is one. *)
Lemma handles_inv name s :
  inv s ->
  handles name s = match tasks s !! name with
                   | Some t => [timerId t]
                   | None => []
                   end.
Proof.
  intros I. unfold handles.
  destruct (tasks s !! name) as [t|] eqn:Ht.
  - replace (filter _ (intervals s))
      with ({[timerId t := mkInterval name (canRepeat t) (intervalTime t)]}
              : gmap nat Interval).
    { by rewrite map_to_list_singleton. }
    apply map_eq. intros id. symmetry.
    destruct (decide (timerId t = id)) as [<-|Hne].
    + rewrite lookup_singleton_eq. apply map_lookup_filter_Some. split; [|done].
      by apply (inv_task s I).
    + rewrite lookup_singleton_ne by done.
      apply map_lookup_filter_None. right. intros h Hl Hn. simpl in Hn.
      destruct (inv_timer s I id h Hl) as (t' & Ht' & Hid).
      rewrite Hn in Ht'. congruence.
  - replace (filter _ (intervals s)) with (∅ : gmap nat Interval).
    { by rewrite map_to_list_empty. }
    symmetry. apply map_empty. intros id.
    apply map_lookup_filter_None. right. intros h Hl Hn. simpl in Hn.
    destruct (inv_timer s I id h Hl) as (t' & Ht' & Hid).
    rewrite Hn in Ht'. congruence.
Qed.

End WorkerInv.

(* ===================================================================== *)
(** ** What the log of the scheduler shows *)
(* ===================================================================== *)

Module WorkerLog.
Import Worker WorkerSpec WorkerFacts WorkerInv.

Lemma inbox_app p l k : inbox p (l ++ k) = inbox p l ++ inbox p k.
Proof. unfold inbox. by rewrite list.filter_app, fmap_app. Qed.

Lemma inbox_to_all_notin p d ps : p ∉ ps -> inbox p (to_all d ps) = [].
Proof.
  induction ps as [|q ps IH]; intros Hp; [done|].
  apply not_elem_of_cons in Hp as [Hne Hp]. unfold inbox, to_all in *. simpl.
  rewrite filter_cons_False by (simpl; congruence). by apply IH.
Qed.

Lemma inbox_to_all p d ps : NoDup ps -> p ∈ ps -> inbox p (to_all d ps) = [d].
Proof.
  induction 1 as [|q ps Hq Hnd IH]; intros Hp; [by apply elem_of_nil in Hp|].
  apply elem_of_cons in Hp as [->|Hp].
  - change (to_all d (q :: ps)) with ((q, d) :: to_all d ps).
    unfold inbox. rewrite filter_cons_True by done. simpl. f_equal.
    by apply inbox_to_all_notin.
  - change (to_all d (q :: ps)) with ((q, d) :: to_all d ps).
    unfold inbox. rewrite filter_cons_False; [by apply IH|].
    simpl. intros ->. done.
Qed.

Lemma ticks_cons name clk r p ps :
  ticks name clk r (p :: ps)
  = (p, Msg.TIMER_TICK name (int (clk r))) :: ticks name clk (S r) ps.
Proof.
  unfold ticks. rewrite imap_cons, Nat.add_0_r. f_equal.
  apply imap_ext. intros k q _. simpl. by rewrite Nat.add_succ_r.
Qed.

Lemma inbox_ticks_notin q name clk ps : forall r,
  q ∉ ps -> inbox q (ticks name clk r ps) = [].
Proof.
  induction ps as [|p ps IH]; intros r Hq; [done|].
  apply not_elem_of_cons in Hq as [Hne Hq]. rewrite ticks_cons.
  unfold inbox in *. rewrite filter_cons_False by (simpl; congruence). by apply IH.
Qed.

(** On a duplicate-free list of ports, the port at position [k] gets one
    tick, stamped with the [k]-th reading of the clock. *)
Lemma inbox_ticks q name clk ps : forall r k,
  NoDup ps -> ps !! k = Some q ->
  inbox q (ticks name clk r ps) = [Msg.TIMER_TICK name (int (clk (r + k)))].
Proof.
  induction ps as [|p ps IH]; intros r k Hnd Hk; [done|].
  apply list.NoDup_cons in Hnd as [Hp Hnd]. rewrite ticks_cons.
  destruct k as [|k]; simpl in Hk.
  - simplify_eq. unfold inbox. rewrite filter_cons_True by done. simpl.
    rewrite Nat.add_0_r. f_equal. by apply inbox_ticks_notin.
  - unfold inbox. rewrite filter_cons_False.
    + rewrite Nat.add_succ_r. by apply (IH (S r) k).
    + simpl. intros ->. apply Hp. by apply list_elem_of_lookup_2 in Hk.
Qed.

Lemma tick_log_app name l k : tick_log name (l ++ k) = tick_log name l ++ tick_log name k.
Proof. apply list.filter_app. Qed.

Lemma tick_log_to_all name d ps :
  Msg.action d <> VStr "TIMER_TICK" -> tick_log name (to_all d ps) = [].
Proof.
  intros Hd. induction ps as [|p ps IH]; [done|].
  unfold tick_log, to_all in *. simpl.
  rewrite filter_cons_False; [done|]. simpl. by intros [? _].
Qed.

Lemma tick_log_ticks_other name n clk r ps :
  n <> name -> tick_log name (ticks n clk r ps) = [].
Proof.
  intros Hn. unfold ticks. revert r. induction ps as [|p ps IH]; intros r; [done|].
  rewrite imap_cons. unfold tick_log in *.
  rewrite filter_cons_False by (simpl; by intros [_ ?]).
  rewrite <- (IH (S r)). f_equal. apply imap_ext. intros k q _. simpl.
  by rewrite Nat.add_succ_r.
Qed.

Lemma clearTask_quiet name n s :
  unarmed name s ->
  unarmed name (clearTask n s)
  /\ tick_log name (sent (clearTask n s)) = tick_log name (sent s).
Proof.
  intros U. destruct (tasks s !! n) as [t|] eqn:Ht.
  - rewrite (clearTask_Some _ _ _ Ht). simpl. split.
    + intros id h Hl. simpl in Hl.
      apply lookup_delete_Some in Hl as [_ Hl]. by apply (U id).
    + rewrite tick_log_app, tick_log_to_all by done. apply app_nil_r.
  - by rewrite clearTask_None.
Qed.

(** While no timer is armed for [name], an event other than an [ADD_TASK]
    for [name] arms none and posts no tick for [name]. *)
Lemma step_quiet name s e :
  unarmed name s -> adds name e = false ->
  unarmed name (step s e)
  /\ tick_log name (sent (step s e)) = tick_log name (sent s).
Proof.
  intros U Hq. destruct e as [p|p d|id|p]; simpl; try done.
  - case_bool_decide; [|done]. unfold onmessage. repeat case_bool_decide.
    + simpl in Hq. apply bool_decide_eq_false in Hq.
      assert (Msg.taskName d <> name) as Hn by (intros E; by apply Hq).
      rewrite addTask_eq. simpl. split; [|done].
      intros id h Hl. simpl in Hl.
      destruct (decide (nextTimerId s = id)) as [<-|Hne].
      * rewrite lookup_insert_eq in Hl. by simplify_eq.
      * rewrite lookup_insert_ne in Hl by done.
        destruct (tasks s !! Msg.taskName d); [|by apply (U id)].
        apply lookup_delete_Some in Hl as [_ Hl]. by apply (U id).
    + by apply clearTask_quiet.
    + destruct (removeAllTasks_eq s) as (im & -> & Him). simpl. split.
      * intros id h Hl. simpl in Hl. apply Him in Hl as [Hl _]. by apply (U id).
      * rewrite tick_log_app, tick_log_to_all by done. apply app_nil_r.
    + simpl. split; [done|]. rewrite tick_log_app. unfold tick_log at 2.
      rewrite filter_cons_False by (simpl; by intros [? _]). apply app_nil_r.
    + done.
  - destruct (intervals s !! id) as [h|] eqn:Hl; [|done].
    rewrite on_interval_eq. simpl.
    set (s1 := mkState _ _ _ _ _ _ _).
    assert (unarmed name s1) as U1 by done.
    assert (tick_log name (sent s1) = tick_log name (sent s)) as E1.
    { unfold s1. simpl. rewrite tick_log_app, tick_log_ticks_other; [apply app_nil_r|].
      by apply (U id). }
    destruct (negb (truthy (i_canRepeat h))); [|done].
    destruct (clearTask_quiet name (i_taskName h) s1 U1) as [? E2].
    split; [done|]. by rewrite E2.
Qed.

Lemma run_quiet name es : forall s,
  unarmed name s -> forallb (fun e => negb (adds name e)) es = true ->
  unarmed name (run s es)
  /\ tick_log name (sent (run s es)) = tick_log name (sent s).
Proof.
  induction es as [|e es IH]; intros s U Hq; simpl; [done|].
  simpl in Hq. apply andb_prop in Hq as [He Hq]. apply negb_true_iff in He.
  destruct (step_quiet name s e U He) as [U' E'].
  destruct (IH (step s e) U' Hq) as [U'' E'']. split; [done|]. by rewrite E''.
Qed.

(** A port that is connected stays connected. *)
Lemma step_ports s e p : p ∈ ports s -> p ∈ ports (step s e).
Proof.
  intros Hp. destruct e as [q|q d|id|q]; simpl; try done.
  - case_bool_decide; [done|]. apply elem_of_app. by left.
  - case_bool_decide; [|done]. unfold onmessage. repeat case_bool_decide; try done.
    + by rewrite addTask_eq.
    + destruct (tasks s !! Msg.taskName d) as [t|] eqn:Ht.
      * by rewrite (clearTask_Some _ _ _ Ht).
      * by rewrite clearTask_None.
    + by destruct (removeAllTasks_eq s) as (im & -> & _).
  - destruct (intervals s !! id) as [h|]; [|done]. rewrite on_interval_eq. simpl.
    destruct (negb (truthy (i_canRepeat h))); [|done].
    set (s1 := mkState _ _ _ _ _ _ _).
    destruct (tasks s1 !! i_taskName h) as [t|] eqn:Ht.
    + by rewrite (clearTask_Some _ _ _ Ht).
    + by rewrite clearTask_None.
Qed.

Lemma run_ports es : forall s p, p ∈ ports s -> p ∈ ports (run s es).
Proof.
  induction es as [|e es IH]; intros s p Hp; simpl; [done|].
  by apply IH, step_ports.
Qed.

End WorkerLog.

(* ===================================================================== *)
(** ** The proxy, method by method *)
(* ===================================================================== *)

Module ProxyFacts.
Import Proxy ProxySpec.

Lemma addTimerTask_eq taskName intervalTime callback canRepeat this :
  addTimerTask taskName intervalTime callback canRepeat this
  = if negb (isConnected this)
    then (Throws (Error "TimerManager is not connected to SharedWorker"), this)
    else if negb (callable callback)
    then (Throws (Error "Callback must be a function"), this)
    else if bad_interval intervalTime
    then (Throws (Error "Interval time must be a positive number"), this)
    else
      let stored := mkTimerManager (workerPath this)
                      (<[taskName := callback]> (callbacks this))
                      (isConnected this) (posted this) (calls this) in
      let data := Msg.ADD_TASK taskName intervalTime
                    (default_arg canRepeat (VBool true)) in
      if cloneable taskName && cloneable intervalTime
         && cloneable (default_arg canRepeat (VBool true))
      then (Returns tt,
            mkTimerManager (workerPath this)
              (<[taskName := callback]> (callbacks this))
              (isConnected this) (posted this ++ [data]) (calls this))
      else (Throws DataCloneError, stored).
Proof.
  unfold addTimerTask, callable, bind, read, throw_if, throw, ret, set_callbacks,
    port_postMessage.
  destruct this as [wp cbs [] ps cl]; simpl; [|done].
  destruct (bool_decide (typeof callback = "function")); simpl; [|done].
  destruct (bad_interval intervalTime); simpl; [done|].
  by destruct (cloneable taskName), (cloneable intervalTime),
    (cloneable (default_arg canRepeat (VBool true))).
Qed.

Lemma bad_interval_positive_number i :
  i <> VNum NaN -> bad_interval i = negb (positive_number i).
Proof.
  intros Hn. destruct i as [| |b|[|b|q]|s|f]; try done.
  - by destruct b.
  - unfold bad_interval, positive_number. simpl.
    destruct (decide (q <= 0)%Qc) as [Hle|Hgt].
    + rewrite (bool_decide_eq_true_2 _ Hle). symmetry. apply negb_true_iff.
      apply bool_decide_eq_false_2. by apply Qcle_not_lt.
    + rewrite (bool_decide_eq_false_2 _ Hgt). symmetry. apply negb_false_iff.
      apply bool_decide_eq_true_2. by apply Qcnot_le_lt.
Qed.

Lemma handleWorkerMessage_TIMER_TICK name ts this :
  handleWorkerMessage (Msg.TIMER_TICK name ts) this
  = let callback := default VUndefined (callbacks this !! name) in
    if truthy callback then call callback [name; ts] this else (Returns tt, this).
Proof.
  unfold handleWorkerMessage, bind, read, ret. simpl.
  by destruct (truthy (default VUndefined (callbacks this !! name))).
Qed.

Lemma functions_constructor workerPath supported :
  callbacks_are_functions (constructor workerPath supported).2.
Proof. intros name v. by destruct supported. Qed.

Lemma functions_step this op :
  callbacks_are_functions this -> callbacks_are_functions (step this op).
Proof.
  intros W. destruct op as [n i c r|n| |n|d]; simpl.
  all: destruct this as [wp cbs conn ps cl].
  - rewrite addTimerTask_eq.
    simpl. destruct (negb conn); [done|].
    destruct (callable c) eqn:Hc; simpl; [|done].
    destruct (bad_interval i); [done|].
    assert (forall p, callbacks_are_functions
              (mkTimerManager wp (<[n:=c]> cbs) conn p cl)) as W'.
    { intros p name v. simpl. intros Hl.
      destruct (decide (n = name)) as [->|Hne].
      - rewrite lookup_insert_eq in Hl. simplify_eq.
        apply bool_decide_eq_true in Hc. destruct v; try done. eauto.
      - rewrite lookup_insert_ne in Hl by done. eauto. }
    simpl. destruct (_ && _); apply W'.
  - unfold clearTimerTask, bind, read, throw_if, throw, ret, set_callbacks,
      port_postMessage.
    destruct conn; simpl; [|done].
    assert (forall name v, delete n cbs !! name = Some v ->
              exists f, v = VFun f) as W'.
    { intros name v Hl. apply lookup_delete_Some in Hl as [_ Hl]. eauto. }
    by destruct (cloneable n).
  - unfold removeAllTimerTasks, bind, read, throw_if, throw, ret, set_callbacks,
      port_postMessage.
    destruct conn; simpl; [|done]. by intros name v.
  - unfold ping, bind, read, ret, port_postMessage.
    destruct conn; simpl; [|done].
    by destruct (cloneable (default_arg n (VStr "health-check"))).
  - unfold handleWorkerMessage, bind, read, ret, set_callbacks.
    repeat case_bool_decide; simpl; try done.
    destruct (truthy _); [|done].
    unfold call. by destruct (default VUndefined _).
Qed.

Lemma functions_run ops : forall this,
  callbacks_are_functions this -> callbacks_are_functions (run this ops).
Proof.
  induction ops as [|op ops IH]; intros this W; simpl; [done|].
  by apply IH, functions_step.
Qed.

End ProxyFacts.

(* ===================================================================== *)
(** ** Properties of the scheduler *)
(* ===================================================================== *)

Import WorkerSpec WorkerFacts WorkerInv WorkerLog.

Lemma onmessage_ADD_TASK p name i r s :
  Worker.onmessage p (Msg.ADD_TASK name i r) s = Worker.addTask name i r s.
Proof. reflexivity. Qed.

Lemma onmessage_CLEAR_TASK p name s :
  Worker.onmessage p (Msg.CLEAR_TASK name) s = Worker.clearTask name s.
Proof. reflexivity. Qed.

Lemma onmessage_REMOVE_ALL p s :
  Worker.onmessage p Msg.REMOVE_ALL s = Worker.removeAllTasks s.
Proof. reflexivity. Qed.

(** C1. In every state the worker can reach, the timers armed for a name
    are the one handle held by the task registered under that name, if any,
    so there is at most one.  Processing [ADD_TASK] for a name disarms the
    handle the registry held for it and arms one new timer; after two
    [ADD_TASK] in a row for the same name, from whatever ports, the handle
    of the first is disarmed and exactly one timer is armed for the name. *)
Theorem C1_one_timer_per_name (clk : nat -> Z) (es : list Worker.Event) (name : jsval) :
  let s := Worker.run (Worker.init clk) es in
  handles name s = match Worker.tasks s !! name with
                   | Some t => [Worker.timerId t]
                   | None => []
                   end
  /\ length (handles name s) <= 1
  /\ forall p q i r i' r',
       let s1 := Worker.onmessage p (Msg.ADD_TASK name i r) s in
       let s2 := Worker.onmessage q (Msg.ADD_TASK name i' r') s1 in
       (forall t, Worker.tasks s !! name = Some t ->
                  Worker.intervals s1 !! Worker.timerId t = None)
       /\ handles name s1 = [Worker.nextTimerId s]
       /\ Worker.intervals s2 !! Worker.nextTimerId s = None
       /\ handles name s2 = [S (Worker.nextTimerId s)].
Proof.
  intros s. assert (I : inv s) by apply inv_reachable.
  pose proof (handles_inv name s I) as Hh. split; [done|]. split.
  { rewrite Hh. destruct (Worker.tasks s !! name); simpl; lia. }
  intros p q i r i' r' s1 s2. unfold s2, s1. rewrite !onmessage_ADD_TASK.
  clear s1 s2. set (s1 := Worker.addTask name i r s).
  assert (I1 : inv s1) by by apply inv_addTask.
  assert (I2 : inv (Worker.addTask name i' r' s1)) by by apply inv_addTask.
  assert (Ht1 : Worker.tasks s1 !! name
                = Some (Worker.mkTask (Worker.nextTimerId s) i r)).
  { unfold s1. rewrite addTask_eq. simpl. apply lookup_insert_eq. }
  assert (Hn1 : Worker.nextTimerId s1 = S (Worker.nextTimerId s)).
  { unfold s1. by rewrite addTask_eq. }
  assert (Hi1 : forall t, Worker.tasks s !! name = Some t ->
                  Worker.intervals s1 !! Worker.timerId t = None).
  { intros t Ht. unfold s1. rewrite addTask_eq. simpl. rewrite Ht.
    assert (Worker.timerId t < Worker.nextTimerId s).
    { apply (inv_fresh s I). rewrite (inv_task s I name t Ht). eauto. }
    rewrite lookup_insert_ne by lia. apply lookup_delete_eq. }
  clearbody s1. split_and!.
  - done.
  - by rewrite (handles_inv _ _ I1), Ht1.
  - rewrite addTask_eq. simpl. rewrite Ht1, Hn1. simpl.
    rewrite lookup_insert_ne by lia. apply lookup_delete_eq.
  - rewrite (handles_inv _ _ I2), addTask_eq. simpl.
    rewrite lookup_insert_eq. simpl. by rewrite Hn1.
Qed.

(** C2. In every state the worker can reach, when the timer of a task
    registered with a falsy [canRepeat] fires, the handler posts one
    [TIMER_TICK] for the name on each port and then one [TASK_CLEARED] for
    it on each port, all within that one event, so that each port receives
    exactly the tick, stamped with the clock as read for that port, followed
    by the [TASK_CLEARED]; the task is gone from the
    registry and no timer is armed for the name, and whatever events follow,
    as long as none is an [ADD_TASK] for the name, no tick for the name is
    posted again. *)
Theorem C2_one_shot_fires_once (clk : nat -> Z) (es : list Worker.Event)
    (name : jsval) (t : Worker.Task) :
  let s := Worker.run (Worker.init clk) es in
  Worker.tasks s !! name = Some t ->
  truthy (Worker.canRepeat t) = false ->
  let s' := Worker.step s (Worker.Fire (Worker.timerId t)) in
  Worker.sent s'
  = Worker.sent s
      ++ ticks name (Worker.clock s) (Worker.reads s) (Worker.ports s)
      ++ to_all (Msg.TASK_CLEARED name) (Worker.ports s)
  /\ (forall k q, Worker.ports s !! k = Some q ->
        inbox q (drop (length (Worker.sent s)) (Worker.sent s'))
        = [Msg.TIMER_TICK name (int (Worker.clock s (Worker.reads s + k)));
           Msg.TASK_CLEARED name])
  /\ Worker.tasks s' !! name = None
  /\ handles name s' = []
  /\ forall es', forallb (fun e => negb (adds name e)) es' = true ->
       tick_log name (Worker.sent (Worker.run s' es')) = tick_log name (Worker.sent s').
Proof.
  intros s Ht Hr s'. assert (I : inv s) by apply inv_reachable.
  assert (I' : inv s') by by apply inv_step.
  pose proof (inv_task s I name t Ht) as Hi.
  assert (E : s' = Worker.mkState (delete name (Worker.tasks s)) (Worker.ports s)
                     (delete (Worker.timerId t) (Worker.intervals s))
                     (Worker.nextTimerId s) (Worker.clock s)
                     (Worker.reads s + length (Worker.ports s))
                     (Worker.sent s
                        ++ ticks name (Worker.clock s) (Worker.reads s) (Worker.ports s)
                        ++ to_all (Msg.TASK_CLEARED name) (Worker.ports s))).
  { unfold s'. simpl. rewrite Hi, on_interval_eq. simpl. rewrite Hr. simpl.
    erewrite clearTask_Some by (simpl; exact Ht). simpl. by rewrite <- app_assoc. }
  assert (Hn : Worker.tasks s' !! name = None).
  { rewrite E. simpl. apply lookup_delete_eq. }
  assert (Hh : handles name s' = []).
  { by rewrite (handles_inv _ _ I'), Hn. }
  split_and!; [by rewrite E| |done|done|].
  { intros k q Hk. rewrite E. simpl. rewrite drop_app_length, inbox_app.
    rewrite (inbox_ticks q name _ _ _ k (inv_ports s I) Hk).
    rewrite inbox_to_all; [done|apply (inv_ports s I)|].
    by apply list_elem_of_lookup_2 in Hk. }
  intros es' Hq. apply run_quiet; [|done].
  intros id h Hl Hname. destruct (inv_timer s' I' id h Hl) as (t' & Ht' & _).
  rewrite Hname in Ht'. congruence.
Qed.

(** A one-shot task added over port [0] of a worker with two ports. *)
Lemma C2_one_shot_fires_once_witness :
  let s := Worker.run (Worker.init (fun _ => 1700000000000%Z))
             [Worker.Connect 0; Worker.Connect 1;
              Worker.Message 0 (Msg.ADD_TASK (VStr "once") (int 50) (VBool false))] in
  handles (VStr "once") (Worker.step s (Worker.Fire 1)) = [].
Proof.
  intros s.
  apply (C2_one_shot_fires_once (fun _ => 1700000000000%Z)
           [Worker.Connect 0; Worker.Connect 1;
            Worker.Message 0 (Msg.ADD_TASK (VStr "once") (int 50) (VBool false))]
           (VStr "once") (Worker.mkTask 1 (int 50) (VBool false)));
    reflexivity.
Defined.

(** C3, as the code has it.  The scheduler does not look at
    [intervalTime]: every [ADD_TASK], whatever its interval, installs the
    task with that interval under its name, arms a timer for it and posts
    nothing. *)
Theorem C3_add_task_is_not_validated (p : port) (name i r : jsval) (s : Worker.State) :
  let s' := Worker.onmessage p (Msg.ADD_TASK name i r) s in
  Worker.tasks s' !! name = Some (Worker.mkTask (Worker.nextTimerId s) i r)
  /\ Worker.intervals s' !! Worker.nextTimerId s = Some (Worker.mkInterval name r i)
  /\ Worker.sent s' = Worker.sent s.
Proof.
  intros s'. subst s'. rewrite onmessage_ADD_TASK, addTask_eq. simpl.
  by rewrite !lookup_insert_eq.
Qed.

(** C3 as stated fails: an [ADD_TASK] with interval [0], which is not a
    strictly positive number, is neither ignored nor answered with an error
    event; the task is installed and its timer armed. *)
Lemma C3_zero_interval_is_installed :
  let s := Worker.run (Worker.init (fun _ => 0%Z)) [Worker.Connect 0] in
  let s' := Worker.step s (Worker.Message 0 (Msg.ADD_TASK (VStr "t") (int 0) (VBool true))) in
  positive_finite (int 0) = false
  /\ ~ (Worker.tasks s' !! VStr "t" = None /\ handles (VStr "t") s' = [])
  /\ Worker.tasks s' !! VStr "t" = Some (Worker.mkTask 1 (int 0) (VBool true))
  /\ handles (VStr "t") s' = [1]
  /\ Worker.sent s' = [].
Proof.
  split_and!; try by vm_compute.
  intros [H _]. vm_compute in H. discriminate H.
Qed.

(** C7. [CLEAR_TASK] for a name the registry does not hold leaves the
    whole state of the worker as it was, the log of posted messages
    included; for a name it holds, the handle of the task is disarmed, the
    name leaves the registry and one [TASK_CLEARED] for it is posted on each
    port. *)
Theorem C7_clear_task (p : port) (name : jsval) (s : Worker.State) :
  let s' := Worker.onmessage p (Msg.CLEAR_TASK name) s in
  match Worker.tasks s !! name with
  | None => s' = s
  | Some t =>
      Worker.intervals s' = delete (Worker.timerId t) (Worker.intervals s)
      /\ Worker.tasks s' = delete name (Worker.tasks s)
      /\ Worker.tasks s' !! name = None
      /\ Worker.ports s' = Worker.ports s
      /\ Worker.sent s'
         = Worker.sent s ++ to_all (Msg.TASK_CLEARED name) (Worker.ports s)
  end.
Proof.
  intros s'. subst s'. rewrite onmessage_CLEAR_TASK.
  destruct (Worker.tasks s !! name) as [t|] eqn:Ht.
  - rewrite (clearTask_Some _ _ _ Ht). simpl. split_and!; try done.
    apply lookup_delete_eq.
  - by apply clearTask_None.
Qed.

(** C6. In every state the worker can reach, [REMOVE_ALL] disarms the
    handle of every registered task (no timer stays armed), empties the
    registry and posts [ALL_TASKS_CLEARED] once on each port.  A proxy that
    handles [ALL_TASKS_CLEARED] has an empty callback map afterwards,
    whatever it held, so each proxy behind a port of the worker answers
    [getActiveTasks()] with the empty array once it has handled the events
    this [REMOVE_ALL] posted on its port. *)
Theorem C6_remove_all (clk : nat -> Z) (es : list Worker.Event) (p : port) :
  let s := Worker.run (Worker.init clk) es in
  let s' := Worker.onmessage p Msg.REMOVE_ALL s in
  let posted := drop (length (Worker.sent s)) (Worker.sent s') in
  (forall name t, Worker.tasks s !! name = Some t ->
                  Worker.intervals s' !! Worker.timerId t = None)
  /\ Worker.intervals s' = ∅
  /\ Worker.tasks s' = ∅
  /\ Worker.sent s' = Worker.sent s ++ posted
  /\ posted = to_all Msg.ALL_TASKS_CLEARED (Worker.ports s)
  /\ (forall q, q ∈ Worker.ports s -> inbox q posted = [Msg.ALL_TASKS_CLEARED])
  /\ (forall this : Proxy.TimerManager,
        Proxy.getActiveTasks (Proxy.handleWorkerMessage Msg.ALL_TASKS_CLEARED this).2 = [])
  /\ (forall q (this : Proxy.TimerManager), q ∈ Worker.ports s ->
        Proxy.getActiveTasks (Proxy.receive this (inbox q posted)) = []).
Proof.
  intros s s' posted. assert (I : inv s) by apply inv_reachable.
  assert (E : s' = Worker.mkState ∅ (Worker.ports s) ∅ (Worker.nextTimerId s)
                     (Worker.clock s) (Worker.reads s)
                     (Worker.sent s ++ to_all Msg.ALL_TASKS_CLEARED (Worker.ports s))).
  { unfold s'. rewrite onmessage_REMOVE_ALL. by apply removeAllTasks_inv_eq. }
  assert (P : posted = to_all Msg.ALL_TASKS_CLEARED (Worker.ports s)).
  { unfold posted. rewrite E. simpl. by rewrite drop_app_length. }
  assert (B : forall q, q ∈ Worker.ports s -> inbox q posted = [Msg.ALL_TASKS_CLEARED]).
  { intros q Hq. rewrite P. apply inbox_to_all; [apply (inv_ports s I)|done]. }
  split_and!; try done.
  - intros name t _. by rewrite E.
  - by rewrite E.
  - by rewrite E.
  - by rewrite P, E.
  - intros q this Hq. by rewrite (B q Hq).
Qed.

(** C9, as the code has it.  The worker has no handler for the failure of
    a port: the event runs no code of it, so its state (and with it every
    other port) is as before, and the port is not dropped; a port that is
    connected stays in [ports] whatever events follow, and each later
    broadcast is posted on it too. *)
Theorem C9_failed_port_stays (s : Worker.State) (p : port) :
  Worker.step s (Worker.PortFailure p) = s
  /\ forall es, p ∈ Worker.ports s ->
       let s' := Worker.run (Worker.step s (Worker.PortFailure p)) es in
       p ∈ Worker.ports s'
       /\ forall d, exists before after,
            Worker.sent (Worker.ports_forEach (fun q => Worker.postMessage q d) s')
            = Worker.sent s' ++ before ++ (p, d) :: after.
Proof.
  split; [done|]. intros es Hp s'.
  assert (Hp' : p ∈ Worker.ports s') by by apply run_ports.
  split; [done|]. intros d. rewrite forEach_post. simpl.
  apply list_elem_of_split in Hp' as (l1 & l2 & ->).
  exists (to_all d l1), (to_all d l2). unfold to_all. by rewrite fmap_app.
Qed.

(** Port [1] fails and is still a port after the next request. *)
Lemma C9_failed_port_stays_witness :
  let s := Worker.run (Worker.init (fun _ => 0%Z)) [Worker.Connect 0; Worker.Connect 1] in
  1 ∈ Worker.ports (Worker.run (Worker.step s (Worker.PortFailure 1))
                               [Worker.Message 0 Msg.REMOVE_ALL]).
Proof.
  intros s.
  apply (proj2 (C9_failed_port_stays s 1) [Worker.Message 0 Msg.REMOVE_ALL]).
  vm_compute. apply elem_of_cons. right. apply elem_of_cons. by left.
Defined.

(** C9 as stated fails: port [1] fails and is still in the set of ports,
    and the next broadcast is still posted on it. *)
Lemma C9_failed_port_is_not_dropped :
  let s := Worker.run (Worker.init (fun _ => 0%Z))
             [Worker.Connect 0; Worker.Connect 1; Worker.PortFailure 1] in
  let s' := Worker.step s (Worker.Message 0 Msg.REMOVE_ALL) in
  ~ (1 ∉ Worker.ports s)
  /\ ~ (inbox 1 (drop (length (Worker.sent s)) (Worker.sent s')) = [])
  /\ Worker.ports s = [0; 1]
  /\ Worker.sent s' = [(0, Msg.ALL_TASKS_CLEARED); (1, Msg.ALL_TASKS_CLEARED)].
Proof.
  split_and!.
  - intros H. apply H. vm_compute. set_solver.
  - intros H. vm_compute in H. discriminate H.
  - by vm_compute.
  - by vm_compute.
Qed.

(* ===================================================================== *)
(** ** Properties of the proxy *)
(* ===================================================================== *)

Import ProxySpec ProxyFacts.

(** C4, as the code has it.  On a connected proxy, for an interval other
    than NaN and a name and a repeat flag that can be sent, [addTimerTask]
    throws exactly when the callback is not callable or the interval is not a
    positive number, and what it throws is then one of its two argument
    errors; the name is not looked at, so the empty string is a name like
    any other.  For a callable callback and a positive interval it returns,
    having stored the callback under the name (in place of what was stored
    there) and posted [ADD_TASK] with the repeat flag, [true] when it was
    left out. *)
Theorem C4_addTimerTask_validation
    (taskName intervalTime callback canRepeat : jsval) (this : Proxy.TimerManager) :
  Proxy.isConnected this = true ->
  intervalTime <> VNum NaN ->
  cloneable taskName = true ->
  cloneable canRepeat = true ->
  let r := Proxy.addTimerTask taskName intervalTime callback canRepeat this in
  ((exists e, r.1 = Proxy.Throws e)
     <-> callable callback = false \/ positive_number intervalTime = false)
  /\ (forall e, r.1 = Proxy.Throws e -> invalid_argument e = true)
  /\ (callable callback = true -> positive_number intervalTime = true ->
      r.1 = Proxy.Returns tt
      /\ Proxy.callbacks r.2 = <[taskName := callback]> (Proxy.callbacks this)
      /\ Proxy.callbacks r.2 !! taskName = Some callback
      /\ Proxy.posted r.2
         = Proxy.posted this
             ++ [Msg.ADD_TASK taskName intervalTime (default_arg canRepeat (VBool true))]).
Proof.
  intros Hc Hn Hname Hrep r. unfold r. rewrite addTimerTask_eq, Hc. simpl.
  rewrite (bad_interval_positive_number _ Hn).
  destruct (callable callback); simpl.
  2: { split_and!; [|by intros e [= <-]|done]. split; eauto. }
  destruct (positive_number intervalTime) eqn:Hp; simpl.
  2: { split_and!; [|by intros e [= <-]|done]. split; eauto. }
  assert (cloneable intervalTime = true) as ->.
  { by destruct intervalTime. }
  assert (cloneable (default_arg canRepeat (VBool true)) = true) as ->.
  { by destruct canRepeat. }
  rewrite Hname. simpl. split_and!.
  - split; [by intros [e ?]|by intros [?|?]].
  - by intros e.
  - intros _ _. split_and!; try done. apply lookup_insert_eq.
Qed.

(** A valid call on a fresh proxy returns. *)
Lemma C4_addTimerTask_validation_witness :
  (Proxy.addTimerTask (VStr "token-refresh") (int 900000) (VFun 7) VUndefined
     fresh_proxy).1 = Proxy.Returns tt.
Proof.
  apply (C4_addTimerTask_validation (VStr "token-refresh") (int 900000) (VFun 7)
           VUndefined fresh_proxy); try reflexivity.
  intros H. discriminate H.
Defined.

(** C4 as stated fails: with the empty string as the name, [addTimerTask]
    does not throw; it stores the callback under the empty name and posts
    [ADD_TASK]. *)
Lemma C4_empty_name_is_accepted :
  let r := Proxy.addTimerTask (VStr "") (int 100) (VFun 0) VUndefined fresh_proxy in
  Proxy.isConnected fresh_proxy = true
  /\ ~ (exists e, r.1 = Proxy.Throws e)
  /\ r.1 = Proxy.Returns tt
  /\ Proxy.callbacks r.2 !! VStr "" = Some (VFun 0)
  /\ Proxy.posted r.2 = [Msg.ADD_TASK (VStr "") (int 100) (VBool true)].
Proof.
  split_and!; try by vm_compute.
  intros [e H]. vm_compute in H. discriminate H.
Qed.

(** The interval NaN, which the guard of [addTimerTask] lets through. *)
Example addTimerTask_NaN :
  (Proxy.addTimerTask (VStr "t") (VNum NaN) (VFun 0) VUndefined fresh_proxy).1
  = Proxy.Returns tt.
Proof. reflexivity. Qed.

(** C5. When [addTimerTask] throws one of its own errors (not connected,
    callback, interval), the proxy is exactly as before the call: the
    callback map is the same and nothing was posted, so a scheduler that
    handles what the call posted is in the state it was in. *)
Theorem C5_validation_error_changes_nothing
    (taskName intervalTime callback canRepeat : jsval) (this : Proxy.TimerManager)
    (message : string) :
  let r := Proxy.addTimerTask taskName intervalTime callback canRepeat this in
  r.1 = Proxy.Throws (Proxy.Error message) ->
  r.2 = this
  /\ Proxy.callbacks r.2 = Proxy.callbacks this
  /\ Proxy.posted r.2 = Proxy.posted this
  /\ (not_connected (Proxy.Error message) || invalid_argument (Proxy.Error message) = true)
  /\ forall (p : port) (s : Worker.State),
       deliver p (drop (length (Proxy.posted this)) (Proxy.posted r.2)) s = s.
Proof.
  intros r. unfold r. rewrite addTimerTask_eq.
  assert (forall (p : port) (s : Worker.State),
            deliver p (drop (length (Proxy.posted this)) (Proxy.posted this)) s = s) as D.
  { intros p s. by rewrite drop_all. }
  destruct (negb (Proxy.isConnected this)); simpl.
  { intros [= <-]. by split_and!. }
  destruct (negb (callable callback)); simpl.
  { intros [= <-]. by split_and!. }
  destruct (Proxy.bad_interval intervalTime); simpl.
  { intros [= <-]. by split_and!. }
  by destruct (_ && _).
Qed.

(** A call with interval [0] on a fresh proxy throws and leaves it fresh. *)
Lemma C5_validation_error_changes_nothing_witness :
  (Proxy.addTimerTask (VStr "t") (int 0) (VFun 0) (VBool true) fresh_proxy).2
  = fresh_proxy.
Proof.
  apply (C5_validation_error_changes_nothing (VStr "t") (int 0) (VFun 0) (VBool true)
           fresh_proxy "Interval time must be a positive number").
  reflexivity.
Defined.

(** C8. Whatever has been done to a proxy since it was constructed, when
    it handles [TIMER_TICK] for a name its callback map holds, the value
    there is a function and is called once with the name and the timestamp,
    and nothing else changes; when the map does not hold the name, the
    handler returns and the proxy is exactly as before. *)
Theorem C8_timer_tick_dispatch
    (workerPath : jsval) (ops : list Proxy.Op) (name ts : jsval) :
  let this := Proxy.run (Proxy.constructor workerPath true).2 ops in
  let r := Proxy.handleWorkerMessage (Msg.TIMER_TICK name ts) this in
  match Proxy.callbacks this !! name with
  | Some callback =>
      exists f, callback = VFun f
      /\ r = (Proxy.Returns tt,
              Proxy.mkTimerManager (Proxy.workerPath this) (Proxy.callbacks this)
                (Proxy.isConnected this) (Proxy.posted this)
                (Proxy.calls this ++ [(f, [name; ts])]))
  | None => r = (Proxy.Returns tt, this)
  end.
Proof.
  intros this r. unfold r. rewrite handleWorkerMessage_TIMER_TICK.
  assert (W : callbacks_are_functions this).
  { apply functions_run, functions_constructor. }
  destruct (Proxy.callbacks this !! name) as [callback|] eqn:Hl; simpl; [|done].
  destruct (W name callback Hl) as [f ->]. simpl. eauto.
Qed.

(** C10. [hasTask(name)] is true exactly when [name] is in the array that
    [getActiveTasks()] returns. *)
Theorem C10_hasTask_iff_active (this : Proxy.TimerManager) (name : jsval) :
  Proxy.hasTask name this = true <-> name ∈ Proxy.getActiveTasks this.
Proof.
  unfold Proxy.hasTask, Proxy.getActiveTasks.
  rewrite bool_decide_eq_true, list_elem_of_fmap. split.
  - intros [v Hv]. exists (name, v). split; [done|]. by apply elem_of_map_to_list.
  - intros [[n v] [-> Hv]]. apply elem_of_map_to_list in Hv. simpl. eauto.
Qed.

(* ===================================================================== *)
(** ** Further properties of the scheduler *)
(* ===================================================================== *)

Import WireSpec.

Lemma size_registry_step (s : Worker.State) (e : Worker.Event) :
  inv s -> size (Worker.intervals s) = size (Worker.tasks s) ->
  size (Worker.intervals (Worker.step s e)) = size (Worker.tasks (Worker.step s e)).
Proof.
  intros I Hs.
  assert (Hclear : forall n s0, inv s0 ->
            size (Worker.intervals s0) = size (Worker.tasks s0) ->
            size (Worker.intervals (Worker.clearTask n s0))
            = size (Worker.tasks (Worker.clearTask n s0))).
  { intros n s0 I0 H0. destruct (Worker.tasks s0 !! n) as [t|] eqn:Ht.
    - rewrite (clearTask_Some _ _ _ Ht). simpl.
      rewrite !map_size_delete, Ht, (inv_task s0 I0 n t Ht). by rewrite H0.
    - by rewrite clearTask_None. }
  destruct e as [p|p d|id|p]; simpl; try done.
  - case_bool_decide; [|done]. unfold Worker.onmessage. repeat case_bool_decide.
    + rewrite addTask_eq. simpl.
      assert (Worker.intervals s !! Worker.nextTimerId s = None) as Hfresh.
      { destruct (Worker.intervals s !! Worker.nextTimerId s) eqn:El; [|done].
        assert (Worker.nextTimerId s < Worker.nextTimerId s)
          by (apply (inv_fresh s I); eauto). lia. }
      destruct (Worker.tasks s !! Msg.taskName d) as [t|] eqn:Ht.
      * pose proof (inv_task s I _ t Ht) as Harmed.
        assert (Worker.timerId t <> Worker.nextTimerId s) as Hne.
        { intros E. rewrite E in Harmed. congruence. }
        rewrite !map_size_insert, lookup_delete_ne, Hfresh, Ht by done.
        rewrite map_size_delete, Harmed. simpl.
        assert (size (Worker.intervals s) <> 0).
        { intros Z. apply map_size_empty_inv in Z.
          pose proof (inv_task s I _ t Ht) as Hl. rewrite Z in Hl. done. }
        lia.
      * rewrite !map_size_insert_None by done. by rewrite Hs.
    + by apply Hclear.
    + rewrite (removeAllTasks_inv_eq s I). simpl. by rewrite !map_size_empty.
    + done.
    + done.
  - destruct (Worker.intervals s !! id) as [h|] eqn:Hl; [|done].
    rewrite on_interval_eq. simpl.
    destruct (negb (truthy (Worker.i_canRepeat h))); [|done].
    apply Hclear; [by destruct I|done].
Qed.

(** X1. In every state the worker can reach there are as many armed
    timers as registered tasks, and the timer a task holds ticks for the
    name of the task, with the repeat flag and the delay the task records:
    no timer is left armed without a task, and none is shared. *)
Theorem X1_no_timer_leaks (clk : nat -> Z) (es : list Worker.Event) :
  let s := Worker.run (Worker.init clk) es in
  size (Worker.intervals s) = size (Worker.tasks s)
  /\ (forall name t, Worker.tasks s !! name = Some t ->
        Worker.intervals s !! Worker.timerId t
        = Some (Worker.mkInterval name (Worker.canRepeat t) (Worker.intervalTime t)))
  /\ (forall n1 n2 t1 t2,
        Worker.tasks s !! n1 = Some t1 -> Worker.tasks s !! n2 = Some t2 ->
        Worker.timerId t1 = Worker.timerId t2 -> n1 = n2).
Proof.
  intros s. assert (I : inv s) by apply inv_reachable. split_and!.
  - unfold s. clear. induction es as [|e es IH] using rev_ind; [done|].
    unfold Worker.run in *. rewrite foldl_app. simpl.
    apply size_registry_step; [apply inv_reachable|done].
  - apply (inv_task s I).
  - intros n1 n2 t1 t2. by apply inv_handle_inj.
Qed.

Lemma fire_repeating (s : Worker.State) (id : nat) (h : Worker.Interval) :
  Worker.intervals s !! id = Some h -> truthy (Worker.i_canRepeat h) = true ->
  Worker.step s (Worker.Fire id)
  = Worker.mkState (Worker.tasks s) (Worker.ports s) (Worker.intervals s)
      (Worker.nextTimerId s) (Worker.clock s)
      (Worker.reads s + length (Worker.ports s))
      (Worker.sent s
         ++ ticks (Worker.i_taskName h) (Worker.clock s) (Worker.reads s) (Worker.ports s)).
Proof. intros Hl Hr. simpl. rewrite Hl, on_interval_eq. simpl. by rewrite Hr. Qed.

Lemma tick_stream_S name clk r n idx k :
  tick_stream name clk r n idx (S k)
  = Msg.TIMER_TICK name (int (clk (r + idx))) :: tick_stream name clk (r + n) n idx k.
Proof.
  unfold tick_stream. simpl. rewrite Nat.add_0_r. f_equal.
  rewrite <- fmap_S_seq, <- list_fmap_compose. apply list_fmap_ext.
  intros _ j _. simpl. do 3 f_equal. lia.
Qed.

Lemma fire_repeating_run (id : nat) (h : Worker.Interval) (k : nat) :
  forall s : Worker.State,
  Worker.intervals s !! id = Some h -> truthy (Worker.i_canRepeat h) = true ->
  NoDup (Worker.ports s) ->
  exists new,
    Worker.run s (replicate k (Worker.Fire id))
    = Worker.mkState (Worker.tasks s) (Worker.ports s) (Worker.intervals s)
        (Worker.nextTimerId s) (Worker.clock s)
        (Worker.reads s + k * length (Worker.ports s)) (Worker.sent s ++ new)
    /\ forall idx q, Worker.ports s !! idx = Some q ->
         inbox q new
         = tick_stream (Worker.i_taskName h) (Worker.clock s) (Worker.reads s)
             (length (Worker.ports s)) idx k.
Proof.
  induction k as [|k IH]; intros s Hl Hr Hnd.
  - exists []. simpl. rewrite app_nil_r, Nat.add_0_r. split; [by destruct s|done].
  - rewrite replicate_S.
    replace (Worker.run s (Worker.Fire id :: replicate k (Worker.Fire id)))
      with (Worker.run (Worker.step s (Worker.Fire id)) (replicate k (Worker.Fire id)))
      by reflexivity.
    rewrite (fire_repeating s id h Hl Hr).
    set (s1 := Worker.mkState _ _ _ _ _ _ _).
    destruct (IH s1 Hl Hr Hnd) as (new & -> & Hin). simpl.
    exists (ticks (Worker.i_taskName h) (Worker.clock s) (Worker.reads s) (Worker.ports s)
              ++ new).
    split.
    + f_equal; [lia|by rewrite app_assoc].
    + intros idx q Hq. rewrite inbox_app, (Hin idx q Hq), tick_stream_S.
      by rewrite (inbox_ticks q _ _ _ _ idx Hnd Hq).
Qed.

(** X2. A timer whose task repeats stays armed when it fires: after any
    number of firings in a row the registry, the armed timers and the ports
    are as before, and each port has received one tick per firing, for the
    name of the task, stamped with the clock as read for that port at that
    firing, in the order of the firings. *)
Theorem X2_repeating_task_keeps_firing
    (s : Worker.State) (id : nat) (h : Worker.Interval) (k : nat) :
  Worker.intervals s !! id = Some h ->
  truthy (Worker.i_canRepeat h) = true ->
  NoDup (Worker.ports s) ->
  let s' := Worker.run s (replicate k (Worker.Fire id)) in
  Worker.tasks s' = Worker.tasks s
  /\ Worker.intervals s' = Worker.intervals s
  /\ Worker.ports s' = Worker.ports s
  /\ forall idx q, Worker.ports s !! idx = Some q ->
       inbox q (drop (length (Worker.sent s)) (Worker.sent s'))
       = tick_stream (Worker.i_taskName h) (Worker.clock s) (Worker.reads s)
           (length (Worker.ports s)) idx k.
Proof.
  intros Hl Hr Hnd s'.
  destruct (fire_repeating_run id h k s Hl Hr Hnd) as (new & E & Hin).
  unfold s'. rewrite E. simpl. split_and!; try done.
  intros idx q Hq. rewrite drop_app_length. by apply Hin.
Qed.

(** Three firings of a repeating task on a worker with two ports. *)
Lemma X2_repeating_task_keeps_firing_witness :
  let s := Worker.run (Worker.init (fun k => (1000 + Z.of_nat k)%Z))
             [Worker.Connect 0; Worker.Connect 1;
              Worker.Message 1 (Msg.ADD_TASK (VStr "t1") (int 100) (VBool true))] in
  Worker.intervals (Worker.run s (replicate 3 (Worker.Fire 1))) = Worker.intervals s.
Proof.
  intros s.
  apply (X2_repeating_task_keeps_firing s 1
           (Worker.mkInterval (VStr "t1") (VBool true) (int 100)) 3);
    [reflexivity|reflexivity|].
  vm_compute. apply list.NoDup_cons. split; [|apply list.NoDup_singleton].
  intros H. apply list_elem_of_singleton in H. discriminate H.
Defined.

(** X3. Tasks are independent of each other: in every state the worker
    can reach, adding, replacing or clearing a task, or the firing of its
    timer, leaves a task registered under another name in the registry
    with its own timer armed as before. *)
Theorem X3_tasks_are_independent
    (clk : nat -> Z) (es : list Worker.Event) (name other : jsval) (t' : Worker.Task) :
  let s := Worker.run (Worker.init clk) es in
  name <> other ->
  Worker.tasks s !! other = Some t' ->
  let kept s' :=
    Worker.tasks s' !! other = Some t'
    /\ Worker.intervals s' !! Worker.timerId t'
       = Some (Worker.mkInterval other (Worker.canRepeat t') (Worker.intervalTime t')) in
  (forall p i r, kept (Worker.onmessage p (Msg.ADD_TASK name i r) s))
  /\ (forall p, kept (Worker.onmessage p (Msg.CLEAR_TASK name) s))
  /\ (forall id h, Worker.intervals s !! id = Some h -> Worker.i_taskName h = name ->
        kept (Worker.step s (Worker.Fire id))).
Proof.
  intros s Hne Ht kept. assert (I : inv s) by apply inv_reachable.
  assert (K : forall s', inv s' -> Worker.tasks s' !! other = Some t' -> kept s').
  { intros s' I' Ht'. split; [done|]. by apply (inv_task s' I'). }
  assert (C : forall s0, Worker.tasks (Worker.clearTask name s0) !! other
                         = Worker.tasks s0 !! other).
  { intros s0. destruct (Worker.tasks s0 !! name) as [t|] eqn:E.
    - rewrite (clearTask_Some _ _ _ E). simpl. by rewrite lookup_delete_ne.
    - by rewrite clearTask_None. }
  split_and!.
  - intros p i r. apply K; [by apply inv_onmessage|].
    rewrite onmessage_ADD_TASK, addTask_eq. simpl. by rewrite lookup_insert_ne.
  - intros p. apply K; [by apply inv_onmessage|].
    rewrite onmessage_CLEAR_TASK. by rewrite C.
  - intros id h Hl Hn. apply K; [by apply inv_step|].
    simpl. rewrite Hl, on_interval_eq. simpl.
    destruct (negb (truthy (Worker.i_canRepeat h))); [|done].
    rewrite Hn, C. done.
Qed.

(** A timer for "a" fires once and is cleared; the task "b" stays. *)
Lemma X3_tasks_are_independent_witness :
  let s := Worker.run (Worker.init (fun _ => 0%Z))
             [Worker.Connect 0;
              Worker.Message 0 (Msg.ADD_TASK (VStr "a") (int 10) (VBool false));
              Worker.Message 0 (Msg.ADD_TASK (VStr "b") (int 20) (VBool true))] in
  Worker.tasks (Worker.step s (Worker.Fire 1)) !! VStr "b"
  = Some (Worker.mkTask 2 (int 20) (VBool true)).
Proof.
  intros s.
  refine (proj1 (proj2 (proj2
    (X3_tasks_are_independent (fun _ => 0%Z)
       [Worker.Connect 0;
        Worker.Message 0 (Msg.ADD_TASK (VStr "a") (int 10) (VBool false));
        Worker.Message 0 (Msg.ADD_TASK (VStr "b") (int 20) (VBool true))]
       (VStr "a") (VStr "b") (Worker.mkTask 2 (int 20) (VBool true)) _ _))
    1 (Worker.mkInterval (VStr "a") (VBool false) (int 10)) _ _));
    try reflexivity.
  intros H. discriminate H.
Defined.

(** X4. In every state the worker can reach, adding a task under a name
    the registry does not hold and clearing it again gives back the
    registry and the armed timers exactly as they were; what remains of the
    pair is one [TASK_CLEARED] for the name on each port. *)
Theorem X4_add_then_clear_restores
    (clk : nat -> Z) (es : list Worker.Event) (p q : port) (name i r : jsval) :
  let s := Worker.run (Worker.init clk) es in
  Worker.tasks s !! name = None ->
  let s' := Worker.onmessage q (Msg.CLEAR_TASK name)
              (Worker.onmessage p (Msg.ADD_TASK name i r) s) in
  Worker.tasks s' = Worker.tasks s
  /\ Worker.intervals s' = Worker.intervals s
  /\ Worker.ports s' = Worker.ports s
  /\ Worker.sent s' = Worker.sent s ++ to_all (Msg.TASK_CLEARED name) (Worker.ports s).
Proof.
  intros s Hn s'. assert (I : inv s) by apply inv_reachable.
  unfold s'. rewrite onmessage_CLEAR_TASK, onmessage_ADD_TASK.
  erewrite clearTask_Some.
  2: { rewrite addTask_eq. simpl. apply lookup_insert_eq. }
  rewrite addTask_eq. simpl. rewrite Hn.
  assert (Worker.intervals s !! Worker.nextTimerId s = None) as Hfresh.
  { destruct (Worker.intervals s !! Worker.nextTimerId s) eqn:El; [|done].
    assert (Worker.nextTimerId s < Worker.nextTimerId s)
      by (apply (inv_fresh s I); eauto). lia. }
  rewrite !delete_insert_eq, !delete_id by done. done.
Qed.

(** A task added and cleared on a worker that holds another one. *)
Lemma X4_add_then_clear_restores_witness :
  let s := Worker.run (Worker.init (fun _ => 0%Z))
             [Worker.Connect 0;
              Worker.Message 0 (Msg.ADD_TASK (VStr "a") (int 10) (VBool true))] in
  Worker.tasks (Worker.onmessage 0 (Msg.CLEAR_TASK (VStr "b"))
                  (Worker.onmessage 0 (Msg.ADD_TASK (VStr "b") (int 5) (VBool true)) s))
  = Worker.tasks s.
Proof.
  intros s.
  apply (X4_add_then_clear_restores (fun _ => 0%Z)
           [Worker.Connect 0;
            Worker.Message 0 (Msg.ADD_TASK (VStr "a") (int 10) (VBool true))]
           0 0 (VStr "b") (int 5) (VBool true)).
  reflexivity.
Defined.

(** X5. [CLEAR_TASK] is idempotent: handling it a second time for the
    same name, from whatever port, changes nothing, so a name is announced
    as cleared once. *)
Theorem X5_clear_task_idempotent (p q : port) (name : jsval) (s : Worker.State) :
  Worker.onmessage q (Msg.CLEAR_TASK name) (Worker.onmessage p (Msg.CLEAR_TASK name) s)
  = Worker.onmessage p (Msg.CLEAR_TASK name) s.
Proof.
  rewrite !onmessage_CLEAR_TASK. apply clearTask_None.
  destruct (Worker.tasks s !! name) as [t|] eqn:Ht.
  - rewrite (clearTask_Some _ _ _ Ht). simpl. apply lookup_delete_eq.
  - by rewrite clearTask_None.
Qed.

Lemma elem_of_to_all p d d' ps : (p, d) ∈ to_all d' ps -> p ∈ ps /\ d = d'.
Proof.
  unfold to_all. intros H. apply list_elem_of_fmap in H as (q & [= -> ->] & Hq). done.
Qed.

Lemma elem_of_ticks p d name clk ps : forall r,
  (p, d) ∈ ticks name clk r ps -> p ∈ ps /\ exists ts, d = Msg.TIMER_TICK name ts.
Proof.
  induction ps as [|q ps IH]; intros r H.
  - by apply elem_of_nil in H.
  - rewrite ticks_cons in H. apply elem_of_cons in H as [[= -> ->]|H].
    + split; [apply elem_of_cons; by left|eauto].
    + destruct (IH _ H) as [Hp Hd]. split; [apply elem_of_cons; by right|done].
Qed.

Lemma step_posts (s : Worker.State) (e : Worker.Event) :
  exists new,
    Worker.sent (Worker.step s e) = Worker.sent s ++ new
    /\ forall p d, (p, d) ∈ new ->
         p ∈ Worker.ports (Worker.step s e) /\ scheduler_event d = true.
Proof.
  assert (Hclear : forall n s0, exists new,
            Worker.sent (Worker.clearTask n s0) = Worker.sent s0 ++ new
            /\ Worker.ports (Worker.clearTask n s0) = Worker.ports s0
            /\ forall p d, (p, d) ∈ new -> p ∈ Worker.ports s0 /\ scheduler_event d = true).
  { intros n s0. destruct (Worker.tasks s0 !! n) as [t|] eqn:Ht.
    - rewrite (clearTask_Some _ _ _ Ht). simpl. eexists. split_and!; [done|done|].
      intros p d H. apply elem_of_to_all in H as [Hp ->]. done.
    - rewrite clearTask_None by done. exists []. rewrite app_nil_r.
      split_and!; [done|done|]. intros p d H. by apply elem_of_nil in H. }
  assert (Hnone : forall s0 : Worker.State, exists new,
            Worker.sent s0 = Worker.sent s0 ++ new
            /\ forall p d, (p, d) ∈ new -> p ∈ Worker.ports s0 /\ scheduler_event d = true).
  { intros s0. exists []. rewrite app_nil_r. split; [done|].
    intros p d H. by apply elem_of_nil in H. }
  destruct e as [p|p d|id|p]; simpl; try apply Hnone.
  - exists []. rewrite app_nil_r. split; [done|]. intros q d H. by apply elem_of_nil in H.
  - case_bool_decide as Hp; [|apply Hnone].
    unfold Worker.onmessage. repeat case_bool_decide; try apply Hnone.
    + rewrite addTask_eq. simpl. exists []. rewrite app_nil_r. split; [done|].
      intros q d' H'. by apply elem_of_nil in H'.
    + destruct (Hclear (Msg.taskName d) s) as (new & E & -> & Hnew). eauto.
    + destruct (removeAllTasks_eq s) as (im & -> & _). simpl. eexists. split; [done|].
      intros q d' H'. apply elem_of_to_all in H' as [Hq ->]. done.
    + simpl. eexists. split; [done|]. intros q d' H'.
      apply list_elem_of_singleton in H'. by simplify_eq.
  - destruct (Worker.intervals s !! id) as [h|]; [|apply Hnone].
    rewrite on_interval_eq. simpl. set (s1 := Worker.mkState _ _ _ _ _ _ _).
    assert (forall p d,
              (p, d) ∈ ticks (Worker.i_taskName h) (Worker.clock s) (Worker.reads s)
                         (Worker.ports s) ->
              p ∈ Worker.ports s /\ scheduler_event d = true) as Hticks.
    { intros p d H. apply elem_of_ticks in H as [Hp [ts ->]]. done. }
    destruct (negb (truthy (Worker.i_canRepeat h))).
    + destruct (Hclear (Worker.i_taskName h) s1) as (new & -> & -> & Hnew). simpl.
      eexists. rewrite <- app_assoc. split; [done|].
      intros p d H. apply elem_of_app in H as [H|H]; eauto.
    + simpl. eexists. split; [done|]. done.
Qed.

(** X6. In every state the worker can reach, no port is listed twice, and
    every message it has posted went to a port that has connected and is
    one of the four events of the protocol: [PONG], [TIMER_TICK],
    [TASK_CLEARED], [ALL_TASKS_CLEARED]. *)
Theorem X6_posts_only_events_on_connected_ports
    (clk : nat -> Z) (es : list Worker.Event) :
  let s := Worker.run (Worker.init clk) es in
  NoDup (Worker.ports s)
  /\ forall p d, (p, d) ∈ Worker.sent s ->
       p ∈ Worker.ports s /\ scheduler_event d = true.
Proof.
  intros s. split; [apply (inv_ports s), inv_reachable|].
  unfold s. clear s. induction es as [|e es IH] using rev_ind.
  - intros p d H. by apply elem_of_nil in H.
  - unfold Worker.run in *. rewrite foldl_app. simpl.
    set (s := foldl Worker.step (Worker.init clk) es) in *.
    destruct (step_posts s e) as (new & -> & Hnew).
    intros p d H. apply elem_of_app in H as [H|H]; [|by apply Hnew].
    destruct (IH p d H) as [Hp Hd]. split; [by apply step_ports|done].
Qed.

(* ===================================================================== *)
(** ** Further properties of the proxy *)
(* ===================================================================== *)

Lemma clearTimerTask_eq (taskName : jsval) (this : Proxy.TimerManager) :
  Proxy.clearTimerTask taskName this
  = if negb (Proxy.isConnected this)
    then (Proxy.Throws (Proxy.Error "TimerManager is not connected to SharedWorker"), this)
    else if cloneable taskName
    then (Proxy.Returns tt,
          Proxy.mkTimerManager (Proxy.workerPath this)
            (delete taskName (Proxy.callbacks this)) (Proxy.isConnected this)
            (Proxy.posted this ++ [Msg.CLEAR_TASK taskName]) (Proxy.calls this))
    else (Proxy.Throws Proxy.DataCloneError,
          Proxy.mkTimerManager (Proxy.workerPath this)
            (delete taskName (Proxy.callbacks this)) (Proxy.isConnected this)
            (Proxy.posted this) (Proxy.calls this)).
Proof.
  unfold Proxy.clearTimerTask, Proxy.bind, Proxy.read, Proxy.throw_if, Proxy.throw,
    Proxy.ret, Proxy.set_callbacks, Proxy.port_postMessage.
  destruct this as [wp cbs [] ps cl]; simpl; [|done].
  by destruct (cloneable taskName).
Qed.

Lemma removeAllTimerTasks_eq (this : Proxy.TimerManager) :
  Proxy.removeAllTimerTasks this
  = if negb (Proxy.isConnected this)
    then (Proxy.Throws (Proxy.Error "TimerManager is not connected to SharedWorker"), this)
    else (Proxy.Returns tt,
          Proxy.mkTimerManager (Proxy.workerPath this) ∅ (Proxy.isConnected this)
            (Proxy.posted this ++ [Msg.REMOVE_ALL]) (Proxy.calls this)).
Proof.
  unfold Proxy.removeAllTimerTasks, Proxy.bind, Proxy.read, Proxy.throw_if, Proxy.throw,
    Proxy.ret, Proxy.set_callbacks, Proxy.port_postMessage.
  by destruct this as [wp cbs [] ps cl].
Qed.

Lemma ping_eq (taskName : jsval) (this : Proxy.TimerManager) :
  Proxy.ping taskName this
  = if negb (Proxy.isConnected this) then (Proxy.Returns false, this)
    else if cloneable (default_arg taskName (VStr "health-check"))
    then (Proxy.Returns true,
          Proxy.mkTimerManager (Proxy.workerPath this) (Proxy.callbacks this)
            (Proxy.isConnected this)
            (Proxy.posted this ++ [Msg.PING (default_arg taskName (VStr "health-check"))])
            (Proxy.calls this))
    else (Proxy.Throws Proxy.DataCloneError, this).
Proof.
  unfold Proxy.ping, Proxy.bind, Proxy.read, Proxy.ret, Proxy.port_postMessage.
  destruct this as [wp cbs [] ps cl]; simpl; [|done].
  by destruct (cloneable (default_arg taskName (VStr "health-check"))).
Qed.

(** Handling an event leaves everything but [callbacks] and [calls]. *)
Lemma handleWorkerMessage_frame (d : Msg.Data) (this : Proxy.TimerManager) :
  let this' := (Proxy.handleWorkerMessage d this).2 in
  Proxy.workerPath this' = Proxy.workerPath this
  /\ Proxy.isConnected this' = Proxy.isConnected this
  /\ Proxy.posted this' = Proxy.posted this.
Proof.
  unfold Proxy.handleWorkerMessage, Proxy.bind, Proxy.read, Proxy.ret,
    Proxy.set_callbacks. destruct this as [wp cbs conn ps cl].
  repeat case_bool_decide; simpl; try done.
  destruct (truthy _); [|done]. unfold Proxy.call. by destruct (default VUndefined _).
Qed.

(** An event other than a tick or [ALL_TASKS_CLEARED] is handled by
    doing nothing. *)
Lemma handleWorkerMessage_other (d : Msg.Data) (this : Proxy.TimerManager) :
  Msg.action d <> VStr "TIMER_TICK" -> Msg.action d <> VStr "ALL_TASKS_CLEARED" ->
  Proxy.handleWorkerMessage d this = (Proxy.Returns tt, this).
Proof.
  intros H1 H2. unfold Proxy.handleWorkerMessage.
  rewrite (bool_decide_eq_false_2 _ H1), (bool_decide_eq_false_2 _ H2).
  by case_bool_decide.
Qed.

Lemma step_frame (this : Proxy.TimerManager) (op : Proxy.Op) :
  Proxy.workerPath (Proxy.step this op) = Proxy.workerPath this
  /\ Proxy.isConnected (Proxy.step this op) = Proxy.isConnected this
  /\ exists new, Proxy.posted (Proxy.step this op) = Proxy.posted this ++ new
                 /\ Forall (fun d => proxy_request d = true) new.
Proof.
  assert (Hnone : exists new, Proxy.posted this = Proxy.posted this ++ new
                              /\ Forall (fun d => proxy_request d = true) new).
  { exists []. by rewrite app_nil_r. }
  destruct op as [n i c r|n| |n|d]; simpl.
  - rewrite addTimerTask_eq.
    destruct (negb (Proxy.isConnected this)); [done|].
    destruct (negb (callable c)); [done|].
    destruct (Proxy.bad_interval i) eqn:Hi; [done|]. simpl.
    destruct (_ && _); simpl; [|done]. split_and!; [done|done|].
    eexists. split; [done|]. apply Forall_singleton.
    unfold proxy_request. simpl. rewrite Hi. by destruct r.
  - rewrite clearTimerTask_eq.
    destruct (negb (Proxy.isConnected this)); [done|].
    destruct (cloneable n); simpl; [|done]. split_and!; [done|done|].
    eexists. split; [done|]. by apply Forall_singleton.
  - rewrite removeAllTimerTasks_eq.
    destruct (negb (Proxy.isConnected this)); [done|]. simpl. split_and!; [done|done|].
    eexists. split; [done|]. by apply Forall_singleton.
  - rewrite ping_eq.
    destruct (negb (Proxy.isConnected this)); [done|].
    destruct (cloneable _); simpl; [|done]. split_and!; [done|done|].
    eexists. split; [done|]. by apply Forall_singleton.
  - destruct (handleWorkerMessage_frame d this) as (? & ? & E).
    split_and!; [done|done|]. rewrite E. done.
Qed.

Lemma run_frame (ops : list Proxy.Op) : forall this : Proxy.TimerManager,
  Forall (fun d => proxy_request d = true) (Proxy.posted this) ->
  Proxy.workerPath (Proxy.run this ops) = Proxy.workerPath this
  /\ Proxy.isConnected (Proxy.run this ops) = Proxy.isConnected this
  /\ Forall (fun d => proxy_request d = true) (Proxy.posted (Proxy.run this ops)).
Proof.
  induction ops as [|op ops IH]; intros this Hp; simpl; [done|].
  destruct (step_frame this op) as (Hw & Hc & new & Hn & Hf).
  destruct (IH (Proxy.step this op)) as (Hw' & Hc' & Hf').
  { rewrite Hn. by apply Forall_app. }
  split_and!; [by rewrite Hw', Hw|by rewrite Hc', Hc|done].
Qed.

(** X8. A proxy that is not connected does nothing: [addTimerTask],
    [clearTimerTask] and [removeAllTimerTasks] throw the not-connected error
    whatever their arguments, [ping] returns [false], and in each case the
    callback map is untouched and nothing is posted. *)
Theorem X8_disconnected_proxy_is_inert
    (this : Proxy.TimerManager) (taskName intervalTime callback canRepeat : jsval) :
  Proxy.isConnected this = false ->
  let e := Proxy.Error "TimerManager is not connected to SharedWorker" in
  Proxy.addTimerTask taskName intervalTime callback canRepeat this = (Proxy.Throws e, this)
  /\ Proxy.clearTimerTask taskName this = (Proxy.Throws e, this)
  /\ Proxy.removeAllTimerTasks this = (Proxy.Throws e, this)
  /\ Proxy.ping taskName this = (Proxy.Returns false, this).
Proof.
  intros Hc e.
  rewrite addTimerTask_eq, clearTimerTask_eq, removeAllTimerTasks_eq, ping_eq, Hc.
  done.
Qed.

(** The object left behind by a constructor that threw. *)
Lemma X8_disconnected_proxy_is_inert_witness :
  Proxy.ping VUndefined (Proxy.constructor VUndefined false).2
  = (Proxy.Returns false, (Proxy.constructor VUndefined false).2).
Proof.
  apply (X8_disconnected_proxy_is_inert (Proxy.constructor VUndefined false).2
           VUndefined VUndefined VUndefined VUndefined).
  reflexivity.
Defined.

(** X9. The constructor throws when the SharedWorker cannot be started
    and otherwise gives a connected proxy with an empty callback map and the
    given path, or the default one.  Nothing ever disconnects a proxy: after
    any calls and events it is still connected, so with a name that can be
    sent [clearTimerTask] and [removeAllTimerTasks] return and [ping]
    returns [true]. *)
Theorem X9_constructed_proxy_stays_connected
    (workerPath : jsval) (ops : list Proxy.Op) (taskName : jsval) :
  let this := Proxy.run (Proxy.constructor workerPath true).2 ops in
  (Proxy.constructor workerPath false).1
  = Proxy.Throws (Proxy.Error "SharedWorker not supported or failed to initialize")
  /\ (Proxy.constructor workerPath true).1 = Proxy.Returns tt
  /\ Proxy.callbacks (Proxy.constructor workerPath true).2 = ∅
  /\ Proxy.workerPath this = default_arg workerPath (VStr "/shared-timer-worker.js")
  /\ Proxy.isConnected this = true
  /\ (cloneable taskName = true ->
      (Proxy.clearTimerTask taskName this).1 = Proxy.Returns tt
      /\ (Proxy.ping taskName this).1 = Proxy.Returns true)
  /\ (Proxy.removeAllTimerTasks this).1 = Proxy.Returns tt.
Proof.
  intros this.
  destruct (run_frame ops (Proxy.constructor workerPath true).2) as (Hw & Hc & _).
  { constructor. }
  fold this in Hw, Hc. simpl in Hw, Hc.
  split_and!; try done.
  - intros Hn. rewrite clearTimerTask_eq, ping_eq, Hc, Hn. simpl.
    assert (cloneable (default_arg taskName (VStr "health-check")) = true) as ->
      by by destruct taskName.
    done.
  - by rewrite removeAllTimerTasks_eq, Hc.
Qed.

(** X11. Whatever is done to a proxy since it was constructed, each
    message it has posted is a request of the protocol, and each [ADD_TASK]
    among them carries an interval that is a number and not [<= 0] and a
    repeat flag that is not [undefined]. *)
Theorem X11_proxy_posts_only_requests (workerPath : jsval) (ops : list Proxy.Op) :
  let this := Proxy.run (Proxy.constructor workerPath true).2 ops in
  Forall (fun d => proxy_request d = true) (Proxy.posted this)
  /\ forall d, d ∈ Proxy.posted this -> Msg.action d = VStr "ADD_TASK" ->
       typeof (Msg.intervalTime d) = "number"
       /\ Proxy.bad_interval (Msg.intervalTime d) = false
       /\ Msg.canRepeat d <> VUndefined.
Proof.
  intros this.
  destruct (run_frame ops (Proxy.constructor workerPath true).2) as (_ & _ & Hf).
  { constructor. }
  fold this in Hf. split; [done|].
  intros d Hd Ha. rewrite list.Forall_forall in Hf. specialize (Hf d Hd).
  unfold proxy_request in Hf. rewrite (bool_decide_eq_true_2 _ Ha) in Hf.
  apply andb_prop in Hf as [Hi Hr]. apply negb_true_iff in Hi, Hr.
  apply bool_decide_eq_false in Hr. split_and!; [|done|done].
  unfold Proxy.bad_interval in Hi. apply orb_false_elim in Hi as [Hi _].
  apply negb_false_iff in Hi. by apply bool_decide_eq_true in Hi.
Qed.

(** X10. On a connected proxy the callback map answers for what was done
    last: after an [addTimerTask] that returned, [hasTask] is true for the
    name; after [clearTimerTask], which posts [CLEAR_TASK] whether or not
    the name was held, it is false; neither changes the answer for another
    name, and [getActiveTasks()] lists no name twice. *)
Theorem X10_local_round_trip
    (this : Proxy.TimerManager) (taskName other intervalTime callback canRepeat : jsval) :
  Proxy.isConnected this = true ->
  cloneable taskName = true ->
  taskName <> other ->
  let a := Proxy.addTimerTask taskName intervalTime callback canRepeat this in
  let c := Proxy.clearTimerTask taskName this in
  (a.1 = Proxy.Returns tt ->
     Proxy.hasTask taskName a.2 = true
     /\ Proxy.hasTask other a.2 = Proxy.hasTask other this
     /\ Proxy.hasTask taskName (Proxy.clearTimerTask taskName a.2).2 = false)
  /\ c.1 = Proxy.Returns tt
  /\ Proxy.hasTask taskName c.2 = false
  /\ Proxy.hasTask other c.2 = Proxy.hasTask other this
  /\ Proxy.posted c.2 = Proxy.posted this ++ [Msg.CLEAR_TASK taskName]
  /\ NoDup (Proxy.getActiveTasks this).
Proof.
  intros Hc Hn Hne a c. unfold a, c. clear a c.
  assert (Hdel : forall m : gmap jsval jsval,
            bool_decide (is_Some (delete taskName m !! taskName)) = false).
  { intros m. apply bool_decide_eq_false_2. rewrite lookup_delete_eq. by intros [? ?]. }
  split_and!.
  - rewrite addTimerTask_eq, Hc. simpl.
    destruct (negb (callable callback)); [done|].
    destruct (Proxy.bad_interval intervalTime); [done|]. simpl.
    destruct (_ && _); [|done]. intros _. unfold Proxy.hasTask. simpl. split_and!.
    + apply bool_decide_eq_true_2. rewrite lookup_insert_eq. eauto.
    + by rewrite lookup_insert_ne.
    + rewrite clearTimerTask_eq. simpl. rewrite Hn. simpl. apply Hdel.
  - by rewrite clearTimerTask_eq, Hc, Hn.
  - rewrite clearTimerTask_eq, Hc, Hn. unfold Proxy.hasTask. simpl. apply Hdel.
  - rewrite clearTimerTask_eq, Hc, Hn. unfold Proxy.hasTask. simpl.
    by rewrite lookup_delete_ne.
  - by rewrite clearTimerTask_eq, Hc, Hn.
  - apply NoDup_fst_map_to_list.
Qed.

(** A task cleared on a fresh proxy that never held it. *)
Lemma X10_local_round_trip_witness :
  Proxy.posted (Proxy.clearTimerTask (VStr "t1") fresh_proxy).2
  = [Msg.CLEAR_TASK (VStr "t1")].
Proof.
  refine (proj1 (proj2 (proj2 (proj2 (proj2
    (X10_local_round_trip fresh_proxy (VStr "t1") (VStr "t2") (int 100) (VFun 0)
       VUndefined _ _ _)))))); try reflexivity.
  intros H. discriminate H.
Defined.

(** X14. A tick that arrives after the proxy cleared the name, or after
    it removed all its tasks, is dropped: the handler returns, no callback
    runs and the proxy is as the clearing call left it. *)
Theorem X14_tick_after_local_clear_is_dropped
    (this : Proxy.TimerManager) (taskName ts : jsval) :
  Proxy.isConnected this = true ->
  cloneable taskName = true ->
  let c := (Proxy.clearTimerTask taskName this).2 in
  let r := (Proxy.removeAllTimerTasks this).2 in
  Proxy.handleWorkerMessage (Msg.TIMER_TICK taskName ts) c = (Proxy.Returns tt, c)
  /\ Proxy.handleWorkerMessage (Msg.TIMER_TICK taskName ts) r = (Proxy.Returns tt, r)
  /\ Proxy.calls c = Proxy.calls this
  /\ Proxy.calls r = Proxy.calls this.
Proof.
  intros Hc Hn c r. unfold c, r. clear c r.
  rewrite clearTimerTask_eq, removeAllTimerTasks_eq, Hc, Hn. simpl.
  rewrite !handleWorkerMessage_TIMER_TICK. simpl.
  by rewrite lookup_delete_eq, lookup_empty.
Qed.

(** A tick for a task that was added and then cleared. *)
Lemma X14_tick_after_local_clear_is_dropped_witness :
  let this := (Proxy.addTimerTask (VStr "t1") (int 100) (VFun 3) VUndefined fresh_proxy).2 in
  Proxy.calls (Proxy.clearTimerTask (VStr "t1") this).2 = Proxy.calls this.
Proof.
  intros this.
  refine (proj1 (proj2 (proj2
    (X14_tick_after_local_clear_is_dropped this (VStr "t1") (int 5) _ _))));
    reflexivity.
Defined.

(** X15. The copy of [addTimerTask] bundled into the worker script does
    not look at the interval: it does what the one of the ESM build does
    whenever that one accepts the interval, and where that one throws for
    the interval it stores the callback and posts [ADD_TASK] with the
    interval as given. *)
Theorem X15_bundled_addTimerTask_skips_interval_check
    (this : Proxy.TimerManager) (taskName intervalTime callback canRepeat : jsval) :
  (Proxy.bad_interval intervalTime = false ->
     Bundled.addTimerTask taskName intervalTime callback canRepeat this
     = Proxy.addTimerTask taskName intervalTime callback canRepeat this)
  /\ (Proxy.isConnected this = true -> callable callback = true ->
      cloneable taskName = true -> cloneable intervalTime = true ->
      cloneable canRepeat = true ->
      Bundled.addTimerTask taskName intervalTime callback canRepeat this
      = (Proxy.Returns tt,
         Proxy.mkTimerManager (Proxy.workerPath this)
           (<[taskName := callback]> (Proxy.callbacks this)) (Proxy.isConnected this)
           (Proxy.posted this
              ++ [Msg.ADD_TASK taskName intervalTime (default_arg canRepeat (VBool true))])
           (Proxy.calls this))).
Proof.
  assert (E : Bundled.addTimerTask taskName intervalTime callback canRepeat this
    = if negb (Proxy.isConnected this)
      then (Proxy.Throws (Proxy.Error "TimerManager is not connected to SharedWorker"), this)
      else if negb (callable callback)
      then (Proxy.Throws (Proxy.Error "Callback must be a function"), this)
      else if cloneable taskName && cloneable intervalTime
              && cloneable (default_arg canRepeat (VBool true))
      then (Proxy.Returns tt,
            Proxy.mkTimerManager (Proxy.workerPath this)
              (<[taskName := callback]> (Proxy.callbacks this)) (Proxy.isConnected this)
              (Proxy.posted this
                 ++ [Msg.ADD_TASK taskName intervalTime
                       (default_arg canRepeat (VBool true))])
              (Proxy.calls this))
      else (Proxy.Throws Proxy.DataCloneError,
            Proxy.mkTimerManager (Proxy.workerPath this)
              (<[taskName := callback]> (Proxy.callbacks this)) (Proxy.isConnected this)
              (Proxy.posted this) (Proxy.calls this))).
  { unfold Bundled.addTimerTask, callable, Proxy.bind, Proxy.read, Proxy.throw_if,
      Proxy.throw, Proxy.ret, Proxy.set_callbacks, Proxy.port_postMessage.
    destruct this as [wp cbs [] ps cl]; simpl; [|done].
    destruct (bool_decide (typeof callback = "function")); simpl; [|done].
    by destruct (cloneable taskName), (cloneable intervalTime),
      (cloneable (default_arg canRepeat (VBool true))). }
  split.
  - intros Hi. rewrite E, addTimerTask_eq, Hi. done.
  - intros Hc Hf Hn Hi Hr. rewrite E, Hc, Hf, Hn, Hi. simpl.
    assert (cloneable (default_arg canRepeat (VBool true)) = true) as ->
      by by destruct canRepeat.
    done.
Qed.

(** An interval of [-5]: the ESM build throws, the bundled copy posts. *)
Lemma X15_bundled_addTimerTask_skips_interval_check_witness :
  (Proxy.addTimerTask (VStr "t") (int (-5)) (VFun 0) VUndefined fresh_proxy).1
  = Proxy.Throws (Proxy.Error "Interval time must be a positive number")
  /\ (Bundled.addTimerTask (VStr "t") (int (-5)) (VFun 0) VUndefined fresh_proxy).1
     = Proxy.Returns tt.
Proof.
  split; [reflexivity|].
  rewrite (proj2 (X15_bundled_addTimerTask_skips_interval_check fresh_proxy
                    (VStr "t") (int (-5)) (VFun 0) VUndefined)); reflexivity.
Defined.

(* ===================================================================== *)
(** ** The proxy and the scheduler together *)
(* ===================================================================== *)

Lemma deliver_one (q : port) (d : Msg.Data) (s : Worker.State) :
  q ∈ Worker.ports s -> deliver q [d] s = Worker.onmessage q d s.
Proof. intros Hq. simpl. by rewrite (bool_decide_eq_true_2 _ Hq). Qed.

(** What one port receives from the firing of the timer of a task. *)
Lemma fire_inbox (s : Worker.State) (name : jsval) (t : Worker.Task) (idx : nat) (q : port) :
  inv s -> Worker.tasks s !! name = Some t -> Worker.ports s !! idx = Some q ->
  let s' := Worker.step s (Worker.Fire (Worker.timerId t)) in
  inbox q (drop (length (Worker.sent s)) (Worker.sent s'))
  = Msg.TIMER_TICK name (int (Worker.clock s (Worker.reads s + idx)))
    :: (if truthy (Worker.canRepeat t) then [] else [Msg.TASK_CLEARED name])
  /\ Worker.tasks s' !! name = if truthy (Worker.canRepeat t) then Some t else None.
Proof.
  intros I Ht Hq s'. unfold s'. simpl.
  rewrite (inv_task s I name t Ht), on_interval_eq. simpl.
  pose proof (inbox_ticks q name (Worker.clock s) (Worker.ports s) (Worker.reads s) idx
                (inv_ports s I) Hq) as Hticks.
  destruct (truthy (Worker.canRepeat t)); simpl.
  - rewrite drop_app_length. done.
  - erewrite clearTask_Some by (simpl; exact Ht). simpl.
    rewrite <- app_assoc, drop_app_length, inbox_app, Hticks.
    rewrite inbox_to_all; [|apply (inv_ports s I)|by apply list_elem_of_lookup_2 in Hq].
    split; [done|]. apply lookup_delete_eq.
Qed.

(** A proxy that holds a function for the name runs it for the tick and
    lets a [TASK_CLEARED] that follows pass. *)
Lemma receive_tick (this : Proxy.TimerManager) (name ts : jsval) (f : nat) (b : bool) :
  Proxy.callbacks this !! name = Some (VFun f) ->
  Proxy.receive this
    (Msg.TIMER_TICK name ts :: (if b then [] else [Msg.TASK_CLEARED name]))
  = Proxy.mkTimerManager (Proxy.workerPath this) (Proxy.callbacks this)
      (Proxy.isConnected this) (Proxy.posted this)
      (Proxy.calls this ++ [(f, [name; ts])]).
Proof.
  intros Hl.
  assert (E : (Proxy.handleWorkerMessage (Msg.TIMER_TICK name ts) this).2
              = Proxy.mkTimerManager (Proxy.workerPath this) (Proxy.callbacks this)
                  (Proxy.isConnected this) (Proxy.posted this)
                  (Proxy.calls this ++ [(f, [name; ts])])).
  { rewrite handleWorkerMessage_TIMER_TICK. simpl. by rewrite Hl. }
  destruct b.
  - exact E.
  - change (Proxy.receive this [Msg.TIMER_TICK name ts; Msg.TASK_CLEARED name])
      with (Proxy.handleWorkerMessage (Msg.TASK_CLEARED name)
              (Proxy.handleWorkerMessage (Msg.TIMER_TICK name ts) this).2).2.
    rewrite E. by rewrite handleWorkerMessage_other.
Qed.

(** X7. A ping goes round: on a connected proxy [ping] returns [true]
    and posts one [PING] with the name given, or with "health-check"; the
    worker answers it with one [PONG] carrying that name, on the port the
    ping came from and on no other, changing nothing else; and the proxy
    handles the [PONG] by doing nothing. *)
Theorem X7_ping_round_trip
    (this : Proxy.TimerManager) (taskName : jsval) (s : Worker.State) (q : port) :
  Proxy.isConnected this = true ->
  cloneable taskName = true ->
  q ∈ Worker.ports s ->
  let name := default_arg taskName (VStr "health-check") in
  let r := Proxy.ping taskName this in
  let s' := deliver q (drop (length (Proxy.posted this)) (Proxy.posted r.2)) s in
  let posted := drop (length (Worker.sent s)) (Worker.sent s') in
  r.1 = Proxy.Returns true
  /\ Proxy.posted r.2 = Proxy.posted this ++ [Msg.PING name]
  /\ Proxy.callbacks r.2 = Proxy.callbacks this
  /\ s' = Worker.mkState (Worker.tasks s) (Worker.ports s) (Worker.intervals s)
            (Worker.nextTimerId s) (Worker.clock s) (Worker.reads s)
            (Worker.sent s ++ [(q, Msg.PONG name)])
  /\ inbox q posted = [Msg.PONG name]
  /\ (forall q', q' <> q -> inbox q' posted = [])
  /\ Proxy.receive r.2 (inbox q posted) = r.2.
Proof.
  intros Hc Hn Hq name r s' posted.
  assert (Hn' : cloneable name = true) by by destruct taskName.
  assert (Er : r = (Proxy.Returns true,
                    Proxy.mkTimerManager (Proxy.workerPath this) (Proxy.callbacks this)
                      (Proxy.isConnected this) (Proxy.posted this ++ [Msg.PING name])
                      (Proxy.calls this))).
  { unfold r. rewrite ping_eq, Hc. simpl. fold name. by rewrite Hn'. }
  assert (Es : s' = Worker.mkState (Worker.tasks s) (Worker.ports s) (Worker.intervals s)
            (Worker.nextTimerId s) (Worker.clock s) (Worker.reads s)
            (Worker.sent s ++ [(q, Msg.PONG name)])).
  { unfold s'. rewrite Er. simpl Proxy.posted. rewrite drop_app_length.
    by rewrite deliver_one. }
  assert (Ep : posted = [(q, Msg.PONG name)]).
  { unfold posted. rewrite Es. simpl. by rewrite drop_app_length. }
  split_and!; try by rewrite ?Er.
  - rewrite Ep. unfold inbox. by rewrite filter_cons_True.
  - intros q' Hne. rewrite Ep. unfold inbox. by rewrite filter_cons_False.
  - rewrite Ep. unfold inbox. rewrite filter_cons_True by done.
    transitivity ((Proxy.handleWorkerMessage (Msg.PONG name) r.2).2); [reflexivity|].
    by rewrite handleWorkerMessage_other.
Qed.

(** A ping without a name from a fresh proxy behind port [0]. *)
Lemma X7_ping_round_trip_witness :
  (Proxy.ping VUndefined fresh_proxy).1 = Proxy.Returns true.
Proof.
  refine (proj1 (X7_ping_round_trip fresh_proxy VUndefined
                   (Worker.run (Worker.init (fun _ => 0%Z)) [Worker.Connect 0]) 0 _ _ _));
    try reflexivity.
  vm_compute. apply elem_of_cons. by left.
Defined.

(** X12. When the timer of a one-shot task fires, a proxy behind a port
    of the worker that holds a callback for the name runs it once, with the
    name and the clock as read for its port, and keeps it: the [TASK_CLEARED]
    that follows the tick does not touch the callback map, so [hasTask] is
    still true for a name the registry no longer holds. *)
Theorem X12_task_cleared_keeps_local_callback
    (clk : nat -> Z) (es : list Worker.Event) (name : jsval) (t : Worker.Task)
    (idx : nat) (q : port) (f : nat) (this : Proxy.TimerManager) :
  let s := Worker.run (Worker.init clk) es in
  Worker.tasks s !! name = Some t ->
  truthy (Worker.canRepeat t) = false ->
  Worker.ports s !! idx = Some q ->
  Proxy.callbacks this !! name = Some (VFun f) ->
  let s' := Worker.step s (Worker.Fire (Worker.timerId t)) in
  let this' := Proxy.receive this (inbox q (drop (length (Worker.sent s)) (Worker.sent s'))) in
  Worker.tasks s' !! name = None
  /\ Proxy.calls this'
     = Proxy.calls this ++ [(f, [name; int (Worker.clock s (Worker.reads s + idx))])]
  /\ Proxy.callbacks this' = Proxy.callbacks this
  /\ Proxy.hasTask name this' = true.
Proof.
  intros s Ht Hr Hq Hf s' this'. assert (I : inv s) by apply inv_reachable.
  destruct (fire_inbox s name t idx q I Ht Hq) as [Hin Htask].
  fold s' in Hin, Htask. rewrite Hr in Hin, Htask.
  unfold this'. rewrite Hin.
  rewrite (receive_tick this name _ f false Hf). simpl. split_and!; try done.
  unfold Proxy.hasTask. simpl. apply bool_decide_eq_true_2. eauto.
Qed.

(** The end-to-end scenario of a one-shot task. *)
Lemma X12_task_cleared_keeps_local_callback_witness :
  let this := (Proxy.addTimerTask (VStr "once") (int 50) (VFun 9) (VBool false)
                 fresh_proxy).2 in
  let s := Worker.run (Worker.init (fun _ => 42%Z))
             [Worker.Connect 0;
              Worker.Message 0 (Msg.ADD_TASK (VStr "once") (int 50) (VBool false))] in
  let s' := Worker.step s (Worker.Fire 1) in
  Proxy.hasTask (VStr "once")
    (Proxy.receive this (inbox 0 (drop (length (Worker.sent s)) (Worker.sent s')))) = true.
Proof.
  intros this s s'.
  refine (proj2 (proj2 (proj2
    (X12_task_cleared_keeps_local_callback (fun _ => 42%Z)
       [Worker.Connect 0;
        Worker.Message 0 (Msg.ADD_TASK (VStr "once") (int 50) (VBool false))]
       (VStr "once") (Worker.mkTask 1 (int 50) (VBool false)) 0 0 9 this _ _ _ _))));
    reflexivity.
Defined.



(** X16. In every state the worker can reach, once [CLEAR_TASK] for a
    name or [REMOVE_ALL] has been handled, no timer is armed for the name,
    and whatever events follow, as long as none is an [ADD_TASK] for the
    name, the worker posts no tick for it. *)
Theorem X16_no_tick_after_clear
    (clk : nat -> Z) (es es' : list Worker.Event) (p : port) (name : jsval) :
  let s := Worker.run (Worker.init clk) es in
  forallb (fun e => negb (adds name e)) es' = true ->
  let quiet s' :=
    handles name s' = []
    /\ tick_log name (Worker.sent (Worker.run s' es')) = tick_log name (Worker.sent s') in
  quiet (Worker.onmessage p (Msg.CLEAR_TASK name) s)
  /\ quiet (Worker.onmessage p Msg.REMOVE_ALL s).
Proof.
  intros s Hq quiet. assert (I : inv s) by apply inv_reachable.
  assert (Q : forall s', inv s' -> Worker.tasks s' !! name = None -> quiet s').
  { intros s' I' Hn. split.
    - by rewrite (handles_inv _ _ I'), Hn.
    - apply run_quiet; [|done]. intros id h Hl Hname.
      destruct (inv_timer s' I' id h Hl) as (t' & Ht' & _).
      rewrite Hname in Ht'. congruence. }
  split; apply Q; try by apply inv_onmessage.
  - rewrite onmessage_CLEAR_TASK. destruct (Worker.tasks s !! name) as [t|] eqn:Ht.
    + rewrite (clearTask_Some _ _ _ Ht). simpl. apply lookup_delete_eq.
    + by rewrite clearTask_None.
  - rewrite onmessage_REMOVE_ALL, (removeAllTasks_inv_eq s I). done.
Qed.

(** A repeating task is cleared; pings and stale firings follow. *)
Lemma X16_no_tick_after_clear_witness :
  let s := Worker.run (Worker.init (fun _ => 0%Z))
             [Worker.Connect 0;
              Worker.Message 0 (Msg.ADD_TASK (VStr "t1") (int 100) (VBool true));
              Worker.Fire 1] in
  handles (VStr "t1") (Worker.onmessage 0 (Msg.CLEAR_TASK (VStr "t1")) s) = [].
Proof.
  intros s.
  refine (proj1 (proj1
    (X16_no_tick_after_clear (fun _ => 0%Z)
       [Worker.Connect 0;
        Worker.Message 0 (Msg.ADD_TASK (VStr "t1") (int 100) (VBool true));
        Worker.Fire 1]
       [Worker.Fire 1; Worker.Message 0 (Msg.PING VUndefined)] 0 (VStr "t1") _)));
    reflexivity.
Defined.

(** X17. Any connected proxy can clear a task of the shared worker,
    whoever added it: once the worker has handled what [clearTimerTask]
    posted, the name is out of the registry and no timer is armed for it.
    Another proxy behind a port of the worker is told with one
    [TASK_CLEARED], when the task existed, and handles it by doing nothing:
    it keeps its callback for the name. *)
Theorem X17_clear_from_any_proxy
    (clk : nat -> Z) (es : list Worker.Event) (q q' : port)
    (this that : Proxy.TimerManager) (taskName : jsval) :
  let s := Worker.run (Worker.init clk) es in
  q ∈ Worker.ports s ->
  q' ∈ Worker.ports s ->
  Proxy.isConnected this = true ->
  cloneable taskName = true ->
  let c := Proxy.clearTimerTask taskName this in
  let s1 := deliver q (drop (length (Proxy.posted this)) (Proxy.posted c.2)) s in
  let told := inbox q' (drop (length (Worker.sent s)) (Worker.sent s1)) in
  Worker.tasks s1 !! taskName = None
  /\ handles taskName s1 = []
  /\ told = match Worker.tasks s !! taskName with
            | Some _ => [Msg.TASK_CLEARED taskName]
            | None => []
            end
  /\ Proxy.receive that told = that.
Proof.
  intros s Hq Hq' Hc Hn c s1 told. assert (I : inv s) by apply inv_reachable.
  assert (E1 : s1 = Worker.clearTask taskName s).
  { unfold s1, c. rewrite clearTimerTask_eq, Hc, Hn. simpl Proxy.posted.
    rewrite drop_app_length, deliver_one by done. apply onmessage_CLEAR_TASK. }
  assert (I1 : inv s1) by (rewrite E1; by apply inv_clearTask).
  assert (Ht1 : Worker.tasks s1 !! taskName = None).
  { rewrite E1. destruct (Worker.tasks s !! taskName) as [t|] eqn:Ht.
    - rewrite (clearTask_Some _ _ _ Ht). simpl. apply lookup_delete_eq.
    - by rewrite clearTask_None. }
  assert (Et : told = match Worker.tasks s !! taskName with
                      | Some _ => [Msg.TASK_CLEARED taskName]
                      | None => []
                      end).
  { unfold told. rewrite E1. destruct (Worker.tasks s !! taskName) as [t|] eqn:Ht.
    - rewrite (clearTask_Some _ _ _ Ht). simpl. rewrite drop_app_length.
      apply inbox_to_all; [apply (inv_ports s I)|done].
    - rewrite clearTask_None by done. by rewrite drop_all. }
  split_and!; [done|by rewrite (handles_inv _ _ I1), Ht1|done|].
  rewrite Et. destruct (Worker.tasks s !! taskName); [|done].
  transitivity ((Proxy.handleWorkerMessage (Msg.TASK_CLEARED taskName) that).2);
    [reflexivity|].
  by rewrite handleWorkerMessage_other.
Qed.

(** The second tab clears the task that the first tab added. *)
Lemma X17_clear_from_any_proxy_witness :
  let s := Worker.run (Worker.init (fun _ => 0%Z))
             [Worker.Connect 0; Worker.Connect 1;
              Worker.Message 0 (Msg.ADD_TASK (VStr "t1") (int 100) (VBool true))] in
  let c := Proxy.clearTimerTask (VStr "t1") fresh_proxy in
  Worker.tasks (deliver 1 (drop (length (Proxy.posted fresh_proxy)) (Proxy.posted c.2)) s)
    !! VStr "t1" = None.
Proof.
  intros s c.
  refine (proj1
    (X17_clear_from_any_proxy (fun _ => 0%Z)
       [Worker.Connect 0; Worker.Connect 1;
        Worker.Message 0 (Msg.ADD_TASK (VStr "t1") (int 100) (VBool true))]
       1 0 fresh_proxy
       (Proxy.addTimerTask (VStr "t1") (int 100) (VFun 0) VUndefined fresh_proxy).2
       (VStr "t1") _ _ _ _)); try reflexivity.
  - vm_compute. apply elem_of_cons. right. apply elem_of_cons. by left.
  - vm_compute. apply elem_of_cons. by left.
Defined.
